(** * The chat session controller of nila's frontend (Chat.tsx)

    A shallow embedding of the [Chat] component: its React state
    ([messages], [inputText], [isTyping]), the ambient stores it uses
    (localStorage's 'token', the router, pending [setTimeout] callbacks,
    pending axios calls) and its handlers [fetchHistory], [handleSend],
    [displayBubblesWithDelay] and [handleLogout].

    An [async] function is split at its [await]: the part that runs up to
    the call keeps the source's name, the part that runs when the promise
    settles is named [..._resumed].  What the environment decides (the
    clock, [Math.random()], the answers of the service, the order in which
    timers and replies arrive) is an input of the model. *)

From Stdlib Require Import ZArith Bool List Sorted String Ascii Lia Floats.
Import ListNotations.
Local Open Scope Z_scope.

(** ** JavaScript strings

    A JavaScript string is a sequence of UTF-16 code units. *)

Definition jsstring := list N.

(** An ASCII literal as a JavaScript string. *)
Definition lit (s : string) : jsstring :=
  List.map N_of_ascii (list_ascii_of_string s).

(** The code units [String.prototype.trim] removes: ECMAScript's WhiteSpace
    and LineTerminator. *)
Definition isWhiteSpace (c : N) : bool :=
  (((9 <=? c) && (c <=? 13)) || (c =? 32) || (c =? 160) || (c =? 5760)
   || ((8192 <=? c) && (c <=? 8202)) || (c =? 8232) || (c =? 8233)
   || (c =? 8239) || (c =? 8287) || (c =? 12288) || (c =? 65279))%N.

Fixpoint trimStart (s : jsstring) : jsstring :=
  match s with
  | [] => []
  | c :: rest => if isWhiteSpace c then trimStart rest else s
  end.

Definition trimEnd (s : jsstring) : jsstring := rev (trimStart (rev s)).

Definition trim (s : jsstring) : jsstring := trimEnd (trimStart s).

(** [!s] for a string: only the empty string is falsy. *)
Definition str_falsy (s : jsstring) : bool :=
  match s with [] => true | _ :: _ => false end.

(** [!v] for the result of [localStorage.getItem]: [null] and the empty
    string are falsy. *)
Definition falsy (v : option jsstring) : bool :=
  match v with
  | None => true
  | Some s => str_falsy s
  end.

(** ** JavaScript numbers used for the delay

    [Math.random() * 500] and the additions of [displayBubblesWithDelay]
    are IEEE 754 binary64 operations.  Every finite double is an integer
    multiple of 2^-1074; a non-negative finite double [x] is represented
    by the integer [x * 2^1074].  All values met here are below 2^11, so
    overflow is not modelled. *)

Module Double.

(** Round to nearest, ties to even, to 53 significant bits.  The exact
    value is [n] in units of 2^-(1074 + lsb); the result is in units of
    2^-1074. *)
Definition fround (lsb n : Z) : Z :=
  let s := Z.max (Z.log2 n + 1 - 53) lsb in
  if s <=? 0 then n else
  let q := Z.shiftr n s in
  let rem := n - Z.shiftl q s in
  let half := Z.shiftl 1 (s - 1) in
  let q' := if (half <? rem) || ((rem =? half) && Z.odd q)
            then q + 1 else q in
  Z.shiftl q' (s - lsb).

(** The double of a small integer literal (exact below 2^53). *)
Definition of_Z (k : Z) : Z := Z.shiftl k 1074.

Definition add (a b : Z) : Z := fround 0 (a + b).
Definition mul (a b : Z) : Z := fround 1074 (a * b).
(** [a / 2] *)
Definition div2 (a : Z) : Z := fround 1 a.

(** [n] is (the representation of) a double. *)
Definition is_double (n : Z) : Prop := 0 <= n /\ fround 0 n = n.

(** The representation of a non-negative finite hardware float. *)
Definition of_prim (f : float) : option Z :=
  match Prim2SF f with
  | S754_zero false => Some 0
  | S754_finite false m e => Some (Z.shiftl (Z.pos m) (e + 1074))
  | _ => None
  end.

(** [fround] against the machine's binary64 unit on one pair of
    operands: product, sum and halving. *)
Definition agrees_with_hardware (a b : float) : bool :=
  match of_prim a, of_prim b,
        of_prim (a * b)%float, of_prim (a + b)%float, of_prim (a / 2)%float with
  | Some x, Some y, Some p, Some s, Some h =>
      (mul x y =? p) && (add x y =? s) && (div2 x =? h)
  | _, _, _, _, _ => false
  end.

(** The largest double below 1, [1 - 2^-53]. *)
Definition pred_one : Z := of_Z 1 - Z.shiftl 1 1021.

(** [1 - 2^-52], the largest value of generators that draw 52 bits. *)
Definition pred_one_52 : Z := of_Z 1 - Z.shiftl 1 1022.

End Double.

(** ** Data model *)

Inductive Sender : Set := user | nila.

Record Message : Set := mkMessage {
  id : Z;
  text : jsstring;
  sender : Sender;
  time : jsstring
}.

(** What the environment is read for while a handler runs: [Date.now()],
    the string [new Date().toLocaleTimeString(...)] returns, and
    [Math.random()]. *)
Record Env : Set := mkEnv {
  date_now : Z;
  locale_time : jsstring;
  math_random : Z
}.

(** A callback handed to [setTimeout] by [displayBubblesWithDelay] and not
    yet run: the variables it closes over, and the delay asked for (the
    value of [delay]; the host counts it in whole milliseconds). *)
Record Timer : Set := mkTimer {
  bubbles_of : list jsstring;
  index_of : nat;
  delay_of : Z
}.

(** An axios call that was issued and has not settled yet. *)
Inductive Request : Set :=
| GetHistory (bearer : jsstring)
| PostChat (bearer : jsstring) (message : jsstring).

(** What a [catch] block looks at: [axios.isAxiosError(error)] and
    [error.response?.status]. *)
Record Error : Set := mkError {
  isAxiosError : bool;
  response_status : option Z
}.

Inductive Settled (A : Type) : Type :=
| Resolved (data : A)
| Rejected (error : Error).
Arguments Resolved {A} data.
Arguments Rejected {A} error.

(** [axios.isAxiosError(error) && error.response?.status === 401] *)
Definition unauthorized (error : Error) : bool :=
  isAxiosError error &&
  match response_status error with
  | Some st => st =? 401
  | None => false
  end.

(** The component and what it acts on.  [messages], [inputText] and
    [isTyping] are the [useState] cells; [mounted] tells whether the
    component is still on screen; [token] is localStorage's 'token';
    [navigated] lists the targets of the [navigate] calls, oldest first;
    [timers] and [requests] are the pending timeouts and axios calls, oldest
    first. *)
Record State : Set := mkState {
  messages : list Message;
  inputText : jsstring;
  isTyping : bool;
  mounted : bool;
  token : option jsstring;
  navigated : list string;
  timers : list Timer;
  requests : list Request
}.

(** The component as first rendered. *)
Definition initial (tok : option jsstring) : State :=
  mkState [] [] false true tok [] [] [].

(** ** The host: React state setters, localStorage, router, timers, axios *)

(** React drops a state update addressed to a component that has been
    unmounted; the three setters are no-ops then. *)
Definition setMessages (f : list Message -> list Message) (s : State) : State :=
  if mounted s
  then mkState (f (messages s)) (inputText s) (isTyping s) (mounted s)
               (token s) (navigated s) (timers s) (requests s)
  else s.

Definition setInputText (v : jsstring) (s : State) : State :=
  if mounted s
  then mkState (messages s) v (isTyping s) (mounted s)
               (token s) (navigated s) (timers s) (requests s)
  else s.

Definition setIsTyping (v : bool) (s : State) : State :=
  if mounted s
  then mkState (messages s) (inputText s) v (mounted s)
               (token s) (navigated s) (timers s) (requests s)
  else s.

(** [localStorage.removeItem('token')] *)
Definition removeItem (s : State) : State :=
  mkState (messages s) (inputText s) (isTyping s) (mounted s)
          None (navigated s) (timers s) (requests s).

Definition navigate (to : string) (s : State) : State :=
  mkState (messages s) (inputText s) (isTyping s) (mounted s)
          (token s) (navigated s ++ [to]) (timers s) (requests s).

Definition setTimeout (t : Timer) (s : State) : State :=
  mkState (messages s) (inputText s) (isTyping s) (mounted s)
          (token s) (navigated s) (timers s ++ [t]) (requests s).

(** Issuing [axios.get] or [axios.post]. *)
Definition axios (r : Request) (s : State) : State :=
  mkState (messages s) (inputText s) (isTyping s) (mounted s)
          (token s) (navigated s) (timers s) (requests s ++ [r]).

Definition remove_nth {A : Type} (k : nat) (l : list A) : list A :=
  firstn k l ++ skipn (S k) l.

Definition with_timers (ts : list Timer) (s : State) : State :=
  mkState (messages s) (inputText s) (isTyping s) (mounted s)
          (token s) (navigated s) ts (requests s).

Definition with_requests (rs : list Request) (s : State) : State :=
  mkState (messages s) (inputText s) (isTyping s) (mounted s)
          (token s) (navigated s) (timers s) rs.

(** Unmounting.  Neither effect of the component returns a cleanup
    function and no timeout handle is kept, so nothing else happens. *)
Definition unmount (s : State) : State :=
  mkState (messages s) (inputText s) (isTyping s) false
          (token s) (navigated s) (timers s) (requests s).

(** ** The component's handlers *)

Definition baseDelay : Z := Double.of_Z 800.

(** [Math.random() * 500] *)
Definition randomVar (random : Z) : Z := Double.mul random (Double.of_Z 500).

(** [index === 0 ? baseDelay + randomVar : (baseDelay / 2) + randomVar] *)
Definition delay (index : nat) (random : Z) : Z :=
  if Nat.eqb index 0
  then Double.add baseDelay (randomVar random)
  else Double.add (Double.div2 baseDelay) (randomVar random).

(** [displayBubblesWithDelay(bubbles, index)] up to and including the call
    of [setTimeout]. *)
Definition displayBubblesWithDelay
    (bubbles : list jsstring) (index : nat) (random : Z) (s : State) : State :=
  if (List.length bubbles <=? index)%nat
  then setIsTyping false s
  else setTimeout (mkTimer bubbles index (delay index random)) s.

(** The arrow function handed to [setTimeout].  [bubbles[index]] is in
    range whenever the callback exists, see [displayBubblesWithDelay]. *)
Definition revealCallback
    (bubbles : list jsstring) (index : nat) (e : Env) (s : State) : State :=
  let newMsg := mkMessage (date_now e + Z.of_nat index)
                          (nth index bubbles []) nila (locale_time e) in
  let s1 := setMessages (fun prev => prev ++ [newMsg]) s in
  if Z.of_nat index <? Z.of_nat (List.length bubbles) - 1
  then displayBubblesWithDelay bubbles (index + 1) (math_random e)
         (setIsTyping true s1)
  else setIsTyping false s1.

(** [fetchHistory()] up to its [await]. *)
Definition fetchHistory (s : State) : State :=
  match token s with
  | Some tok =>
      if str_falsy tok then navigate "/login" s
      else axios (GetHistory tok) s
  | None => navigate "/login" s
  end.

(** [fetchHistory()] from its [await] on. *)
Definition fetchHistory_resumed (r : Settled (list Message)) (s : State) : State :=
  match r with
  | Resolved data => setMessages (fun _ => data) s
  | Rejected error =>
      if unauthorized error
      then navigate "/login" (removeItem s)
      else s
  end.

(** [handleSend()] up to its [await], as the render that saw [inputText]
    equal to [shown] created it: the handler reads [inputText] from the
    closure of that render, and the token from localStorage when it
    runs. *)
Definition handleSendFrom (shown : jsstring) (e : Env) (s : State) : State :=
  match token s with
  | Some tok =>
      if str_falsy tok then navigate "/login" s
      else if str_falsy (trim shown) then s
      else
        let userMsg := mkMessage (date_now e) shown user (locale_time e) in
        let s1 := setMessages (fun prev => prev ++ [userMsg]) s in
        let s2 := setInputText [] s1 in
        let s3 := setIsTyping true s2 in
        axios (PostChat tok (text userMsg)) s3
  | None => navigate "/login" s
  end.

(** [handleSend()] of the render that shows the current state.  React
    renders again after an event that changed the state, so this is the
    handler that a click or a key press finds, unless it comes before that
    render. *)
Definition handleSend (e : Env) (s : State) : State :=
  handleSendFrom (inputText s) e s.

(** [handleSend()] from its [await] on. *)
Definition handleSend_resumed
    (r : Settled (list jsstring)) (e : Env) (s : State) : State :=
  match r with
  | Resolved replyBubbles =>
      displayBubblesWithDelay replyBubbles 0 (math_random e) s
  | Rejected error =>
      let s1 := setIsTyping false s in
      if unauthorized error then navigate "/login" s1 else s1
  end.

Definition handleLogout (s : State) : State :=
  navigate "/login" (removeItem s).

(** ** The event loop *)

Inductive Reply : Set :=
| HistoryData (data : list Message)
| ChatData (replyBubbles : list jsstring)
| Failure (error : Error).

Inductive Event : Set :=
| Activate                                   (* the mount effect runs *)
| Change (v : jsstring)                      (* onChange of the input *)
| Send (e : Env)                 (* click, or Enter, on the latest render *)
| Logout                                     (* click on the logout icon *)
| Settle (k : nat) (r : Reply) (e : Env)     (* the k-th pending call settles *)
| Fire (k : nat) (e : Env)                   (* the k-th pending timer fires *)
| Teardown.                                  (* the component is unmounted *)

Definition settle (k : nat) (r : Reply) (e : Env) (s : State) : State :=
  match nth_error (requests s) k, r with
  | Some (GetHistory _), HistoryData data =>
      fetchHistory_resumed (Resolved data)
        (with_requests (remove_nth k (requests s)) s)
  | Some (GetHistory _), Failure error =>
      fetchHistory_resumed (Rejected error)
        (with_requests (remove_nth k (requests s)) s)
  | Some (PostChat _ _), ChatData replyBubbles =>
      handleSend_resumed (Resolved replyBubbles) e
        (with_requests (remove_nth k (requests s)) s)
  | Some (PostChat _ _), Failure error =>
      handleSend_resumed (Rejected error) e
        (with_requests (remove_nth k (requests s)) s)
  | _, _ => s
  end.

Definition fire (k : nat) (e : Env) (s : State) : State :=
  match nth_error (timers s) k with
  | Some t =>
      revealCallback (bubbles_of t) (index_of t) e
        (with_timers (remove_nth k (timers s)) s)
  | None => s
  end.

Definition step (ev : Event) (s : State) : State :=
  match ev with
  | Activate => fetchHistory s
  | Change v => setInputText v s
  | Send e => handleSend e s
  | Logout => handleLogout s
  | Settle k r e => settle k r e s
  | Fire k e => fire k e s
  | Teardown => unmount s
  end.

Fixpoint run (evs : list Event) (s : State) : State :=
  match evs with
  | [] => s
  | ev :: rest => run rest (step ev s)
  end.

(** ** Runs of the Staged Reply Player *)

(** The staged reveal left alone: the timer at position [p] of the pending
    timers fires once for each element of [es]. *)
Fixpoint reveal_all (p : nat) (es : list Env) (s : State) : State :=
  match es with
  | [] => s
  | e :: rest => reveal_all p rest (step (Fire p e) s)
  end.

(** The messages the reveals of [bubbles] from [index] on mint, one for
    each environment read. *)
Fixpoint revealed (bubbles : list jsstring) (index : nat) (es : list Env)
  : list Message :=
  match es with
  | [] => []
  | e :: rest =>
      mkMessage (date_now e + Z.of_nat index) (nth index bubbles []) nila
                (locale_time e)
      :: revealed bubbles (S index) rest
  end.

(** A history reply is the one event that replaces the log. *)
Definition is_history_data (ev : Event) : bool :=
  match ev with
  | Settle _ (HistoryData _) _ => true
  | _ => false
  end.

(** ** Scenarios *)

Definition a_token : jsstring := lit "eyJhbGciOi".

Definition at_time (now : Z) (random : Z) : Env :=
  mkEnv now (lit "10:42 AM") random.

Definition status_401 : Error := mkError true (Some 401).

(** The draws 1/2 and 1/8 of [Math.random()]. *)
Definition one_half : Z := Z.shiftl 1 1073.
Definition one_eighth : Z := Z.shiftl 1 1071.

(** History loads empty, the user sends "hi", the service answers 401. *)
Definition send_rejected_401 : list Event :=
  [ Activate; Settle 0 (HistoryData []) (at_time 900 0);
    Change (lit "hi"); Send (at_time 1000 0);
    Settle 0 (Failure status_401) (at_time 1050 0) ].

(** The user sends "hi" and the service answers with two fragments. *)
Definition send_two_fragments : list Event :=
  [ Activate; Settle 0 (HistoryData []) (at_time 900 0);
    Change (lit "hi"); Send (at_time 1000 0);
    Settle 0 (ChatData [lit "hello"; lit "there"]) (at_time 1050 one_eighth) ].

(** The first fragment is revealed 862 ms after the reply, the second
    650 ms later; the user presses Enter on "ok" one millisecond after
    that. *)
Definition send_right_after_reveal : list Event :=
  send_two_fragments ++
  [ Fire 0 (at_time 1912 one_half); Change (lit "ok");
    Fire 0 (at_time 2562 0); Send (at_time 2563 0) ].

(** The component goes away while the first reveal is pending. *)
Definition teardown_mid_reveal : list Event :=
  send_two_fragments ++ [ Teardown ].

(** The user sends "hi" while the history is still being fetched. *)
Definition send_before_history : list Event :=
  [ Activate; Change (lit "hi"); Send (at_time 1000 0) ].

(** Then the history arrives, the chat call succeeds with one fragment and
    the fragment is revealed. *)
Definition history_after_send : list Event :=
  send_before_history ++
  [ Settle 0 (HistoryData [mkMessage 1 (lit "old") nila (lit "09:00 AM")])
           (at_time 1010 0);
    Settle 0 (ChatData [lit "hello"]) (at_time 1050 one_eighth);
    Fire 0 (at_time 1912 0) ].

(** ** What the view derives from the state *)

(** [disabled={!inputText.trim()}] of the send button. *)
Definition sendDisabled (s : State) : bool := str_falsy (trim (inputText s)).

(** ** Measures and predicates on the pending work *)

(** The bearer credential a pending call was issued with. *)
Definition bearer_of (r : Request) : jsstring :=
  match r with
  | GetHistory b => b
  | PostChat b _ => b
  end.

(** The call carries a credential that [!token] lets through. *)
Definition carries_credential (r : Request) : bool :=
  negb (str_falsy (bearer_of r)).

(** The text a chat call posts is not blank. *)
Definition posts_text (r : Request) : bool :=
  match r with
  | GetHistory _ => true
  | PostChat _ m => negb (str_falsy (trim m))
  end.

(** Something is under way that will turn the typing flag off: a chat call
    is pending, or a reveal is. *)
Definition is_chat_call (r : Request) : bool :=
  match r with
  | GetHistory _ => false
  | PostChat _ _ => true
  end.

Definition work_pending (s : State) : bool :=
  existsb is_chat_call (requests s) ||
  match timers s with [] => false | _ :: _ => true end.

(** The fragments the pending reveals have still to append: for each
    pending callback, the fragments of its batch from its index on. *)
Definition fragments_left (s : State) : nat :=
  list_sum (List.map (fun t => List.length (bubbles_of t) - index_of t)%nat
                     (timers s)).

(** ** The login and registration forms (Login.tsx, Register.tsx)

    Both components hold [username], [password] and [error] and share
    localStorage and the router with the chat. *)

Inductive FormRequest : Set :=
| PostToken (username password : jsstring)       (* form-encoded, /token *)
| PostRegister (username password : jsstring).   (* JSON, /register *)

Record Form : Set := mkForm {
  username : jsstring;
  password : jsstring;
  error : jsstring;
  stored_token : option jsstring;
  form_navigated : list string;
  form_requests : list FormRequest
}.

(** [localStorage.setItem('token', v)]: the value is stored as a string; a
    field that the reply does not have reads [undefined] and is stored as
    the text "undefined". *)
Definition setItem (v : option jsstring) (f : Form) : Form :=
  mkForm (username f) (password f) (error f)
         (Some (match v with Some t => t | None => lit "undefined" end))
         (form_navigated f) (form_requests f).

Definition setError (v : jsstring) (f : Form) : Form :=
  mkForm (username f) (password f) v (stored_token f)
         (form_navigated f) (form_requests f).

Definition form_navigate (to : string) (f : Form) : Form :=
  mkForm (username f) (password f) (error f) (stored_token f)
         (form_navigated f ++ [to]) (form_requests f).

Definition form_axios (r : FormRequest) (f : Form) : Form :=
  mkForm (username f) (password f) (error f) (stored_token f)
         (form_navigated f) (form_requests f ++ [r]).

(** [handleLogin(e)] up to its [await]. *)
Definition handleLogin (f : Form) : Form :=
  form_axios (PostToken (username f) (password f)) f.

(** [handleLogin(e)] from its [await] on; the reply's data is an object
    and [access_token] is its field of that name, if it has one. *)
Definition handleLogin_resumed (r : Settled (option jsstring)) (f : Form) : Form :=
  match r with
  | Resolved access_token => form_navigate "/chat" (setItem access_token f)
  | Rejected err =>
      if isAxiosError err
      then setError (lit "Invalid username or password") f
      else setError (lit "Login failed") f
  end.

(** [handleRegister(e)] up to its [await]. *)
Definition handleRegister (f : Form) : Form :=
  form_axios (PostRegister (username f) (password f)) f.

(** [axios.isAxiosError(err) && err.response?.status === 400] *)
Definition username_taken (err : Error) : bool :=
  isAxiosError err &&
  match response_status err with
  | Some st => st =? 400
  | None => false
  end.

(** [handleRegister(e)] from its [await] on. *)
Definition handleRegister_resumed (r : Settled (option jsstring)) (f : Form) : Form :=
  match r with
  | Resolved access_token => form_navigate "/chat" (setItem access_token f)
  | Rejected err =>
      if username_taken err
      then setError (lit "Username already taken") f
      else setError (lit "Registration failed") f
  end.

(** The clock does not go back along a run of reveals. *)
Fixpoint clock_monotone (es : list Env) : Prop :=
  match es with
  | [] => True
  | e :: rest =>
      match rest with
      | [] => True
      | e' :: _ => date_now e <= date_now e'
      end /\ clock_monotone rest
  end.

(** * Properties *)

(** ** Trimming *)

Lemma trimStart_nil_iff (s : jsstring) :
  trimStart s = [] <-> forallb isWhiteSpace s = true.
Proof.
  induction s as [|c rest IH]; simpl.
  - tauto.
  - destruct (isWhiteSpace c); simpl.
    + exact IH.
    + split; discriminate.
Qed.

Lemma trimStart_head (s : jsstring) (c : N) (rest : jsstring) :
  trimStart s = c :: rest -> isWhiteSpace c = false.
Proof.
  induction s as [|d tl IH]; simpl.
  - discriminate.
  - destruct (isWhiteSpace d) eqn:Hd.
    + exact IH.
    + intros [= <- _]. exact Hd.
Qed.

Lemma forallb_rev {A : Type} (f : A -> bool) (l : list A) :
  forallb f (rev l) = forallb f l.
Proof.
  induction l as [|a l IH]; simpl.
  - reflexivity.
  - rewrite forallb_app, IH. simpl. rewrite andb_true_r. apply andb_comm.
Qed.

(** [!inputText.trim()] holds exactly for the inputs made of white space
    only (the empty one among them). *)
Lemma trim_nil_iff (s : jsstring) :
  trim s = [] <-> forallb isWhiteSpace s = true.
Proof.
  unfold trim, trimEnd. rewrite <- trimStart_nil_iff. split.
  - intros H. destruct (trimStart s) as [|c rest] eqn:Hs.
    + reflexivity.
    + exfalso. apply trimStart_head in Hs.
      assert (Hr : trimStart (rev (c :: rest)) = []).
      { destruct (trimStart (rev (c :: rest))) as [|d l]; [reflexivity|].
        apply (f_equal (@List.length N)) in H.
        rewrite length_rev in H. discriminate. }
      apply trimStart_nil_iff in Hr. rewrite forallb_rev in Hr.
      simpl in Hr. rewrite Hs in Hr. discriminate.
  - intros ->. reflexivity.
Qed.

(** ** The host operations, field by field *)

Ltac host :=
  unfold setMessages, setInputText, setIsTyping, removeItem, navigate,
    setTimeout, axios, with_timers, with_requests, unmount in *;
  simpl in *.

Lemma setIsTyping_mounted (v : bool) (s : State) :
  mounted s = true ->
  setIsTyping v s =
  mkState (messages s) (inputText s) v true (token s) (navigated s)
          (timers s) (requests s).
Proof. intros H. unfold setIsTyping. rewrite H. reflexivity. Qed.

Lemma setMessages_mounted (f : list Message -> list Message) (s : State) :
  mounted s = true ->
  setMessages f s =
  mkState (f (messages s)) (inputText s) (isTyping s) true (token s)
          (navigated s) (timers s) (requests s).
Proof. intros H. unfold setMessages. rewrite H. reflexivity. Qed.

(** ** Send with nothing to send, send without a credential *)

(** C3.  A send whose trimmed input is empty is rejected: the Message Log,
    the input field, the typing flag, the pending timers and the Session
    Store are as before and no call to the service is issued.  With a
    credential in the store the whole state is as before. *)
Theorem empty_send_rejected (e : Env) (s : State) :
  trim (inputText s) = [] ->
  messages (handleSend e s) = messages s /\
  inputText (handleSend e s) = inputText s /\
  isTyping (handleSend e s) = isTyping s /\
  requests (handleSend e s) = requests s /\
  timers (handleSend e s) = timers s /\
  token (handleSend e s) = token s /\
  (falsy (token s) = false -> handleSend e s = s).
Proof.
  intros Htrim.
  assert (H : handleSend e s = s \/
              (handleSend e s = navigate "/login" s /\ falsy (token s) = true)).
  { unfold handleSend, handleSendFrom, falsy.
    destruct (token s) as [tok|]; [destruct (str_falsy tok)|];
      rewrite ?Htrim; simpl; auto. }
  destruct H as [-> | [-> Hf]].
  - repeat split; reflexivity.
  - repeat split; try reflexivity. rewrite Hf. discriminate.
Qed.

Lemma empty_send_rejected_witness :
  let s := mkState [] (lit "  ") false true (Some a_token) [] [] [] in
  trim (inputText s) = [] /\
  messages (handleSend (at_time 1000 0) s) = messages s /\
  requests (handleSend (at_time 1000 0) s) = requests s.
Proof.
  split; [reflexivity|].
  pose proof (empty_send_rejected (at_time 1000 0)
    (mkState [] (lit "  ") false true (Some a_token) [] [] []) eq_refl) as H.
  split; [apply H|apply H].
Defined.

(** C10.  The credential is looked at before the input: a send attempted
    while the Session Store holds no credential does nothing but signal the
    redirect to login, whatever the input text is; in particular no call to
    the service is issued. *)
Theorem send_without_credential (e : Env) (s : State) :
  falsy (token s) = true ->
  handleSend e s = navigate "/login" s /\
  navigated (handleSend e s) = navigated s ++ ["/login"%string] /\
  requests (handleSend e s) = requests s /\
  messages (handleSend e s) = messages s /\
  inputText (handleSend e s) = inputText s /\
  isTyping (handleSend e s) = isTyping s.
Proof.
  intros Hf. unfold handleSend, handleSendFrom, falsy in *.
  destruct (token s) as [tok|].
  - rewrite Hf. repeat split; reflexivity.
  - repeat split; reflexivity.
Qed.

Lemma send_without_credential_witness :
  let s := mkState [] (lit "   ") false true None [] [] [] in
  falsy (token s) = true /\ trim (inputText s) = [] /\
  navigated (handleSend (at_time 1000 0) s) = ["/login"%string] /\
  requests (handleSend (at_time 1000 0) s) = [].
Proof.
  split; [reflexivity|]. split; [reflexivity|].
  pose proof (send_without_credential (at_time 1000 0)
    (mkState [] (lit "   ") false true None [] [] []) eq_refl) as H.
  split; [apply H|apply H].
Defined.

(** ** The empty batch *)

(** C6.  Handed an empty fragment batch, the Staged Reply Player sets the
    typing flag to false at once and stops: no Message is appended and no
    timer is scheduled. *)
Theorem empty_batch_stops_typing (random : Z) (s : State) :
  mounted s = true ->
  displayBubblesWithDelay [] 0 random s = setIsTyping false s /\
  isTyping (displayBubblesWithDelay [] 0 random s) = false /\
  messages (displayBubblesWithDelay [] 0 random s) = messages s /\
  timers (displayBubblesWithDelay [] 0 random s) = timers s /\
  requests (displayBubblesWithDelay [] 0 random s) = requests s.
Proof.
  intros Hm. unfold displayBubblesWithDelay. simpl.
  rewrite (setIsTyping_mounted _ _ Hm). repeat split; reflexivity.
Qed.

Lemma empty_batch_stops_typing_witness :
  let s := mkState [] [] true true (Some a_token) [] [] [] in
  mounted s = true /\
  isTyping (displayBubblesWithDelay [] 0 one_half s) = false /\
  messages (displayBubblesWithDelay [] 0 one_half s) = [] /\
  timers (displayBubblesWithDelay [] 0 one_half s) = [].
Proof.
  split; [reflexivity|].
  pose proof (empty_batch_stops_typing one_half
    (mkState [] [] true true (Some a_token) [] [] []) eq_refl)
    as (_ & H1 & H2 & H3 & _).
  split; [exact H1|]. split; [exact H2|exact H3].
Defined.

(** ** Loading the history *)

Lemma fetchHistory_with_credential (s : State) (tok : jsstring) :
  token s = Some tok -> tok <> [] ->
  fetchHistory s = axios (GetHistory tok) s.
Proof.
  intros Ht Hne. unfold fetchHistory. rewrite Ht.
  destruct tok; [contradiction|reflexivity].
Qed.

Lemma fetchHistory_failure_inert (error : Error) (s : State) :
  unauthorized error = false ->
  fetchHistory_resumed (Rejected error) s = s.
Proof. intros H. simpl. rewrite H. reflexivity. Qed.

(** C8.  On activation with a credential in the store the history is asked
    for, with that credential and without any redirect.  When the call
    succeeds the Message Log is the returned sequence, as it came (whatever
    the log held before); when it fails with anything but an authorization
    failure nothing changes: the Message Log stays empty, no redirect to
    login is signaled and the credential stays. *)
Theorem history_load (tok : jsstring) :
  tok <> [] ->
  let s1 := step Activate (initial (Some tok)) in
  requests s1 = [GetHistory tok] /\ navigated s1 = [] /\ messages s1 = [] /\
  (forall data e,
      messages (step (Settle 0 (HistoryData data) e) s1) = data /\
      navigated (step (Settle 0 (HistoryData data) e) s1) = []) /\
  (forall error e,
      unauthorized error = false ->
      messages (step (Settle 0 (Failure error) e) s1) = [] /\
      navigated (step (Settle 0 (Failure error) e) s1) = [] /\
      token (step (Settle 0 (Failure error) e) s1) = Some tok) /\
  (forall data s,
      mounted s = true ->
      messages (fetchHistory_resumed (Resolved data) s) = data) /\
  (forall error s,
      unauthorized error = false ->
      fetchHistory_resumed (Rejected error) s = s).
Proof.
  intros Hne s1. subst s1. simpl.
  rewrite (fetchHistory_with_credential (initial (Some tok)) tok eq_refl Hne).
  split; [reflexivity|]. split; [reflexivity|]. split; [reflexivity|].
  split; [|split; [|split]].
  - intros data e. split; reflexivity.
  - intros error e Hu. unfold settle. simpl. rewrite Hu.
    repeat split; reflexivity.
  - intros data s Hm. simpl. rewrite (setMessages_mounted _ _ Hm). reflexivity.
  - intros error s Hu. apply fetchHistory_failure_inert. exact Hu.
Qed.

Lemma history_load_witness :
  let s1 := step Activate (initial (Some a_token)) in
  a_token <> [] /\
  messages (step (Settle 0 (HistoryData
     [mkMessage 1 (lit "hi") user (lit "09:00 AM");
      mkMessage 2 (lit "hello") nila (lit "09:00 AM")]) (at_time 900 0)) s1)
  = [mkMessage 1 (lit "hi") user (lit "09:00 AM");
     mkMessage 2 (lit "hello") nila (lit "09:00 AM")] /\
  messages (step (Settle 0 (Failure (mkError true None)) (at_time 900 0)) s1) = [] /\
  navigated (step (Settle 0 (Failure (mkError true None)) (at_time 900 0)) s1) = [].
Proof.
  assert (Hne : a_token <> []) by discriminate.
  split; [exact Hne|].
  pose proof (history_load a_token Hne) as (_ & _ & _ & Hok & Hfail & _).
  split; [apply Hok|].
  split; apply (Hfail (mkError true None) (at_time 900 0) eq_refl).
Defined.

(** ** Authorization failures *)

(** The history path: a 401 clears the credential and signals the
    redirect. *)
Lemma history_unauthorized_clears_credential (error : Error) (s : State) :
  unauthorized error = true ->
  token (fetchHistory_resumed (Rejected error) s) = None /\
  navigated (fetchHistory_resumed (Rejected error) s)
  = navigated s ++ ["/login"%string].
Proof. intros H. simpl. rewrite H. split; reflexivity. Qed.

(** The send path never writes the Session Store, whatever the outcome of
    the call. *)
Lemma handleSend_resumed_token (r : Settled (list jsstring)) (e : Env) (s : State) :
  token (handleSend_resumed r e s) = token s.
Proof.
  destruct r as [replyBubbles|error]; simpl.
  - unfold displayBubblesWithDelay, setIsTyping, setTimeout.
    destruct (List.length replyBubbles <=? 0)%nat; [destruct (mounted s)|];
      reflexivity.
  - unfold setIsTyping, navigate.
    destruct (unauthorized error), (mounted s); reflexivity.
Qed.

(** C2, the send path at a 401: the redirect to login is signaled and the
    typing flag is turned off, but the credential is still in the Session
    Store afterwards. *)
Theorem send_unauthorized_keeps_credential :
  let s := run send_rejected_401 (initial (Some a_token)) in
  token s = Some a_token /\ navigated s = ["/login"%string] /\
  isTyping s = false /\ List.length (messages s) = 1%nat.
Proof. vm_compute. repeat split; reflexivity. Qed.

(** ** The Message Log only grows *)

Lemma displayBubblesWithDelay_messages
    (bubbles : list jsstring) (index : nat) (random : Z) (s : State) :
  messages (displayBubblesWithDelay bubbles index random s) = messages s.
Proof.
  unfold displayBubblesWithDelay, setIsTyping, setTimeout.
  destruct (List.length bubbles <=? index)%nat; [destruct (mounted s)|];
    reflexivity.
Qed.

Ltac log_grows :=
  simpl; first [ exists []; rewrite app_nil_r; reflexivity
               | eexists; reflexivity ].

Lemma revealCallback_messages
    (bubbles : list jsstring) (index : nat) (e : Env) (s : State) :
  exists rest, messages (revealCallback bubbles index e s) = messages s ++ rest.
Proof.
  unfold revealCallback, displayBubblesWithDelay.
  destruct s as [ms it ty [|] tk nv tm rq]; host;
    destruct (Z.of_nat index <? Z.of_nat (List.length bubbles) - 1);
    try destruct (List.length bubbles <=? index + 1)%nat; log_grows.
Qed.

Lemma handleSend_messages (e : Env) (s : State) :
  exists rest, messages (handleSend e s) = messages s ++ rest.
Proof.
  unfold handleSend, handleSendFrom.
  destruct s as [ms it ty [|] tk nv tm rq]; host;
    (destruct tk as [tok|]; [destruct (str_falsy tok)|]); try log_grows;
    destruct (str_falsy (trim it)); log_grows.
Qed.

Lemma handleSend_resumed_messages
    (r : Settled (list jsstring)) (e : Env) (s : State) :
  messages (handleSend_resumed r e s) = messages s.
Proof.
  destruct r as [replyBubbles|error]; simpl.
  - apply displayBubblesWithDelay_messages.
  - unfold setIsTyping, navigate.
    destruct (unauthorized error), (mounted s); reflexivity.
Qed.

(** Every event but the arrival of the history leaves what is in the
    Message Log in place and, at most, appends to it. *)
Lemma step_log_extends (ev : Event) (s : State) :
  is_history_data ev = false ->
  exists rest, messages (step ev s) = messages s ++ rest.
Proof.
  intros Hev.
  assert (Hsame : forall s', messages s' = messages s ->
                             exists rest, messages s' = messages s ++ rest).
  { intros s' ->. exists []. rewrite app_nil_r. reflexivity. }
  destruct ev as [|v|e| |k r e|k e|]; simpl.
  - apply Hsame. unfold fetchHistory.
    destruct (token s) as [tok|]; [destruct (str_falsy tok)|]; reflexivity.
  - apply Hsame. unfold setInputText. destruct (mounted s); reflexivity.
  - apply handleSend_messages.
  - apply Hsame. reflexivity.
  - apply Hsame. unfold settle.
    destruct (nth_error (requests s) k) as [[tok|tok msg]|];
      destruct r as [data|replyBubbles|error]; try reflexivity;
      try discriminate Hev.
    + simpl. destruct (unauthorized error); reflexivity.
    + rewrite handleSend_resumed_messages. reflexivity.
    + rewrite handleSend_resumed_messages. reflexivity.
  - unfold fire. destruct (nth_error (timers s) k) as [t|].
    + apply (revealCallback_messages (bubbles_of t) (index_of t) e
               (with_timers (remove_nth k (timers s)) s)).
    + apply Hsame. reflexivity.
  - apply Hsame. reflexivity.
Qed.

Lemma run_log_extends (evs : list Event) (s : State) :
  Forall (fun ev => is_history_data ev = false) evs ->
  exists rest, messages (run evs s) = messages s ++ rest.
Proof.
  revert s. induction evs as [|ev evs IH]; intros s Hall; simpl.
  - exists []. rewrite app_nil_r. reflexivity.
  - inversion Hall as [|? ? Hev Hrest]; subst.
    destruct (step_log_extends ev s Hev) as [r1 H1].
    destruct (IH (step ev s) Hrest) as [r2 H2].
    exists (r1 ++ r2). rewrite H2, H1, app_assoc. reflexivity.
Qed.

(** ** The optimistic append *)

Lemma handleSend_accepted (e : Env) (s : State) (tok : jsstring) :
  mounted s = true -> token s = Some tok -> tok <> [] ->
  trim (inputText s) <> [] ->
  handleSend e s =
  mkState (messages s ++ [mkMessage (date_now e) (inputText s) user (locale_time e)])
          [] true true (Some tok) (navigated s) (timers s)
          (requests s ++ [PostChat tok (inputText s)]).
Proof.
  intros Hm Ht Hne Htrim. unfold handleSend, handleSendFrom. rewrite Ht.
  destruct tok as [|c tok']; [contradiction|]. simpl str_falsy. cbv iota.
  destruct (trim (inputText s)) as [|d rest]; [contradiction|]. simpl str_falsy.
  cbv iota zeta.
  rewrite (setMessages_mounted _ _ Hm).
  unfold setInputText, setIsTyping, axios. simpl. rewrite Ht. reflexivity.
Qed.

Lemma nth_error_snoc {A : Type} (l : list A) (x : A) :
  nth_error (l ++ [x]) (List.length l) = Some x.
Proof. induction l as [|a l IH]; simpl; [reflexivity|exact IH]. Qed.

(** C7, as the claim has it, fails on the exchange [history_after_send]:
    the user sends "hi" while the history call of the activation is
    pending; the Message is in the log; then the history arrives and
    replaces the log, and although the chat call succeeds and its fragment
    is revealed, the user's Message is not in the log any more. *)
Lemma late_history_drops_sent_message :
  let userMsg := mkMessage 1000 (lit "hi") user (lit "10:42 AM") in
  let sent := run send_before_history (initial (Some a_token)) in
  let s := run history_after_send (initial (Some a_token)) in
  messages sent = [userMsg] /\
  requests sent = [GetHistory a_token; PostChat a_token (lit "hi")] /\
  List.map text (messages s) = [lit "old"; lit "hello"] /\
  requests s = [] /\ timers s = [] /\
  ~ In userMsg (messages s).
Proof.
  vm_compute. repeat split; try reflexivity.
  intros [H|[H|[]]]; discriminate H.
Qed.

(** C7, amended.  A send with a credential and a non-empty trimmed input
    appends the user Message, carrying the raw input text, while the call
    to the service is issued, and the send itself never takes it back: when
    the call settles, whatever its outcome, the log is still the old log
    followed by that Message, and every later run of events in which no
    history arrives keeps it there.  A history reply that arrives after
    the send (the call of the activation may still be pending) replaces
    the log by the history, the user Message included. *)
Theorem optimistic_append_kept (e : Env) (s : State) (tok : jsstring) :
  mounted s = true -> token s = Some tok -> tok <> [] ->
  trim (inputText s) <> [] ->
  let userMsg := mkMessage (date_now e) (inputText s) user (locale_time e) in
  let s1 := step (Send e) s in
  messages s1 = messages s ++ [userMsg] /\
  requests s1 = requests s ++ [PostChat tok (inputText s)] /\
  (forall r e',
      messages (step (Settle (List.length (requests s)) r e') s1)
      = messages s ++ [userMsg]) /\
  (forall evs,
      Forall (fun ev => is_history_data ev = false) evs ->
      exists rest, messages (run evs s1) = (messages s ++ [userMsg]) ++ rest) /\
  (forall k bearer data e',
      nth_error (requests s) k = Some (GetHistory bearer) ->
      messages (step (Settle k (HistoryData data) e') s1) = data).
Proof.
  intros Hm Ht Hne Htrim userMsg s1. subst s1 userMsg. simpl step.
  rewrite (handleSend_accepted e s tok Hm Ht Hne Htrim).
  split; [reflexivity|]. split; [reflexivity|]. split; [|split].
  - intros r e'. unfold settle. cbn [requests].
    rewrite nth_error_snoc.
    destruct r as [data|replyBubbles|error]; [reflexivity| |];
      rewrite handleSend_resumed_messages; reflexivity.
  - intros evs Hall.
    destruct (run_log_extends evs
      (mkState (messages s ++ [mkMessage (date_now e) (inputText s) user
                                         (locale_time e)])
               [] true true (Some tok) (navigated s) (timers s)
               (requests s ++ [PostChat tok (inputText s)])) Hall)
      as [rest Hrest].
    exists rest. exact Hrest.
  - intros k bearer data e' Hk. unfold settle. cbn [requests].
    rewrite nth_error_app1
      by (apply nth_error_Some; rewrite Hk; discriminate).
    rewrite Hk. reflexivity.
Qed.

Lemma optimistic_append_kept_witness :
  let s := mkState [] (lit "hi") false true (Some a_token) [] [] [] in
  let userMsg := mkMessage 1000 (lit "hi") user (lit "10:42 AM") in
  messages (step (Send (at_time 1000 0)) s) = [userMsg] /\
  messages (step (Settle 0 (Failure status_401) (at_time 1050 0))
              (step (Send (at_time 1000 0)) s)) = [userMsg] /\
  messages (step (Settle 0 (Failure (mkError true None)) (at_time 1050 0))
              (step (Send (at_time 1000 0)) s)) = [userMsg].
Proof.
  assert (Hne : a_token <> []) by discriminate.
  assert (Htrim : trim (lit "hi") <> []) by discriminate.
  pose proof (optimistic_append_kept (at_time 1000 0)
    (mkState [] (lit "hi") false true (Some a_token) [] [] [])
    a_token eq_refl eq_refl Hne Htrim) as (H1 & _ & H3 & _ & _).
  split; [exact H1|].
  split; [exact (H3 (Failure status_401) (at_time 1050 0))|].
  exact (H3 (Failure (mkError true None)) (at_time 1050 0)).
Defined.

(** ** The Staged Reply Player *)

Lemma remove_nth_snoc {A : Type} (l : list A) (x : A) :
  remove_nth (List.length l) (l ++ [x]) = l.
Proof.
  unfold remove_nth. induction l as [|a l IH]; simpl.
  - reflexivity.
  - f_equal. exact IH.
Qed.

Lemma fire_newest (bubbles : list jsstring) (index : nat) (d : Z)
    (ts : list Timer) (e : Env) (s : State) :
  timers s = ts ++ [mkTimer bubbles index d] ->
  fire (List.length ts) e s = revealCallback bubbles index e (with_timers ts s).
Proof.
  intros Ht. unfold fire. rewrite Ht, nth_error_snoc, remove_nth_snoc.
  reflexivity.
Qed.

(** The callback on the last fragment. *)
Lemma revealCallback_last (bubbles : list jsstring) (index : nat)
    (e : Env) (s : State) :
  mounted s = true -> S index = List.length bubbles ->
  revealCallback bubbles index e s =
  mkState (messages s ++ [mkMessage (date_now e + Z.of_nat index)
                                    (nth index bubbles []) nila (locale_time e)])
          (inputText s) false true (token s) (navigated s) (timers s)
          (requests s).
Proof.
  intros Hm Hlen. unfold revealCallback.
  replace (Z.of_nat index <? Z.of_nat (List.length bubbles) - 1) with false
    by (symmetry; apply Z.ltb_ge; lia).
  rewrite (setMessages_mounted _ _ Hm). reflexivity.
Qed.

(** The callback on a fragment that is not the last one. *)
Lemma revealCallback_more (bubbles : list jsstring) (index : nat)
    (e : Env) (s : State) :
  mounted s = true -> (S index < List.length bubbles)%nat ->
  revealCallback bubbles index e s =
  mkState (messages s ++ [mkMessage (date_now e + Z.of_nat index)
                                    (nth index bubbles []) nila (locale_time e)])
          (inputText s) true true (token s) (navigated s)
          (timers s ++ [mkTimer bubbles (index + 1)
                                (delay (index + 1) (math_random e))])
          (requests s).
Proof.
  intros Hm Hlen. unfold revealCallback, displayBubblesWithDelay.
  replace (Z.of_nat index <? Z.of_nat (List.length bubbles) - 1) with true
    by (symmetry; apply Z.ltb_lt; lia).
  replace (List.length bubbles <=? index + 1)%nat with false
    by (symmetry; apply Nat.leb_gt; lia).
  rewrite (setMessages_mounted _ _ Hm). reflexivity.
Qed.

Lemma reveal_all_from (rest : list Env) :
  forall (e : Env) (bubbles : list jsstring) (index : nat) (d : Z)
         (ts : list Timer) (s : State),
    mounted s = true ->
    timers s = ts ++ [mkTimer bubbles index d] ->
    (index + S (List.length rest) = List.length bubbles)%nat ->
    reveal_all (List.length ts) (e :: rest) s =
    mkState (messages s ++ revealed bubbles index (e :: rest))
            (inputText s) false true (token s) (navigated s) ts (requests s).
Proof.
  induction rest as [|e' rest IH]; intros e bubbles index d ts s Hm Ht Hlen.
  - simpl in *. rewrite (fire_newest _ _ _ _ _ _ Ht).
    rewrite revealCallback_last by (simpl; trivial; lia). reflexivity.
  - change (reveal_all (List.length ts) (e :: e' :: rest) s)
      with (reveal_all (List.length ts) (e' :: rest) (fire (List.length ts) e s)).
    rewrite (fire_newest _ _ _ _ _ _ Ht).
    rewrite revealCallback_more by (simpl in *; trivial; lia).
    rewrite (IH e' bubbles (index + 1)%nat
               (delay (index + 1) (math_random e)) ts);
      [ | reflexivity | reflexivity | simpl in *; lia ].
    cbn [messages inputText token navigated requests].
    rewrite <- app_assoc. rewrite Nat.add_1_r. reflexivity.
Qed.

Lemma skipn_nth_cons (bubbles : list jsstring) :
  forall index, (index < List.length bubbles)%nat ->
    skipn index bubbles = nth index bubbles [] :: skipn (S index) bubbles.
Proof.
  induction bubbles as [|b bubbles IH]; intros index Hlt; simpl in Hlt.
  - lia.
  - destruct index as [|index]; [reflexivity|].
    simpl. apply IH. lia.
Qed.

Lemma revealed_text (bubbles : list jsstring) (es : list Env) :
  forall index, (index + List.length es <= List.length bubbles)%nat ->
    List.map text (revealed bubbles index es)
    = firstn (List.length es) (skipn index bubbles).
Proof.
  induction es as [|e es IH]; intros index Hlen; simpl in *.
  - reflexivity.
  - rewrite (skipn_nth_cons bubbles index) by lia. simpl.
    f_equal. apply IH. lia.
Qed.

Lemma revealed_sender (bubbles : list jsstring) (es : list Env) :
  forall index, Forall (fun m => sender m = nila) (revealed bubbles index es).
Proof.
  induction es as [|e es IH]; intros index; simpl; constructor.
  - reflexivity.
  - apply IH.
Qed.

Lemma revealed_length (bubbles : list jsstring) (es : list Env) :
  forall index, List.length (revealed bubbles index es) = List.length es.
Proof.
  induction es as [|e es IH]; intros index; simpl; [reflexivity|].
  f_equal. apply IH.
Qed.

(** Between two reveals of a batch the typing flag is true and the next
    reveal is the one pending. *)
Lemma reveal_all_partial (rest : list Env) :
  forall (e : Env) (bubbles : list jsstring) (index : nat) (d : Z)
         (ts : list Timer) (s : State),
    mounted s = true ->
    timers s = ts ++ [mkTimer bubbles index d] ->
    (index + S (List.length rest) < List.length bubbles)%nat ->
    exists d',
      reveal_all (List.length ts) (e :: rest) s =
      mkState (messages s ++ revealed bubbles index (e :: rest))
              (inputText s) true true (token s) (navigated s)
              (ts ++ [mkTimer bubbles (index + S (List.length rest)) d'])
              (requests s).
Proof.
  induction rest as [|e' rest IH]; intros e bubbles index d ts s Hm Ht Hlen.
  - simpl in *. rewrite (fire_newest _ _ _ _ _ _ Ht).
    rewrite revealCallback_more by (simpl; trivial; lia).
    eexists. reflexivity.
  - change (reveal_all (List.length ts) (e :: e' :: rest) s)
      with (reveal_all (List.length ts) (e' :: rest) (fire (List.length ts) e s)).
    rewrite (fire_newest _ _ _ _ _ _ Ht).
    rewrite revealCallback_more by (simpl in *; trivial; lia).
    destruct (IH e' bubbles (index + 1)%nat
                (delay (index + 1) (math_random e)) ts
                (mkState (messages (with_timers ts s) ++
                          [mkMessage (date_now e + Z.of_nat index)
                                     (nth index bubbles []) nila (locale_time e)])
                         (inputText (with_timers ts s)) true true
                         (token (with_timers ts s)) (navigated (with_timers ts s))
                         (timers (with_timers ts s) ++
                          [mkTimer bubbles (index + 1)
                                   (delay (index + 1) (math_random e))])
                         (requests (with_timers ts s))))
      as [d' Hd']; [reflexivity|reflexivity|simpl in *; lia|].
    exists d'. rewrite Hd'.
    cbn [messages inputText token navigated requests with_timers].
    rewrite <- app_assoc, Nat.add_1_r.
    replace (S index + S (List.length rest))%nat
      with (index + S (List.length (e' :: rest)))%nat by (simpl; lia).
    reflexivity.
Qed.

(** Every pending reveal points inside its batch: [bubbles[index]] is
    defined when the callback runs. *)
Lemma step_timers_in_range (ev : Event) (s : State) :
  Forall (fun t => (index_of t < List.length (bubbles_of t))%nat) (timers s) ->
  Forall (fun t => (index_of t < List.length (bubbles_of t))%nat)
         (timers (step ev s)).
Proof.
  intros Hall.
  assert (Hdisp : forall bubbles index random s0,
             Forall (fun t => (index_of t < List.length (bubbles_of t))%nat)
                    (timers s0) ->
             Forall (fun t => (index_of t < List.length (bubbles_of t))%nat)
                    (timers (displayBubblesWithDelay bubbles index random s0))).
  { intros bubbles index random s0 H0. unfold displayBubblesWithDelay.
    destruct (List.length bubbles <=? index)%nat eqn:Hle.
    - unfold setIsTyping. destruct (mounted s0); exact H0.
    - apply Nat.leb_gt in Hle. simpl. apply Forall_app. split; [exact H0|].
      constructor; [exact Hle|constructor]. }
  assert (Hrem : forall k,
             Forall (fun t => (index_of t < List.length (bubbles_of t))%nat)
                    (remove_nth k (timers s))).
  { intros k. unfold remove_nth. apply Forall_app. split.
    - rewrite <- (firstn_skipn k (timers s)) in Hall.
      apply Forall_app in Hall. apply Hall.
    - rewrite <- (firstn_skipn (S k) (timers s)) in Hall.
      apply Forall_app in Hall. apply Hall. }
  destruct ev as [|v|e| |k r e|k e|]; simpl.
  - unfold fetchHistory.
    destruct (token s) as [tok|]; [destruct (str_falsy tok)|]; exact Hall.
  - unfold setInputText. destruct (mounted s); exact Hall.
  - unfold handleSend, handleSendFrom.
    destruct (token s) as [tok|]; [destruct (str_falsy tok)|]; try exact Hall.
    destruct (str_falsy (trim (inputText s))); [exact Hall|].
    destruct s as [ms it ty [|] tk nv tm rq]; host; exact Hall.
  - exact Hall.
  - unfold settle.
    destruct (nth_error (requests s) k) as [[tok|tok msg]|];
      destruct r as [data|replyBubbles|error]; try exact Hall.
    + destruct s as [ms it ty [|] tk nv tm rq]; host; exact Hall.
    + simpl. destruct (unauthorized error); exact Hall.
    + simpl. apply Hdisp. exact Hall.
    + simpl. unfold setIsTyping, navigate.
      destruct (unauthorized error);
        destruct s as [ms it ty [|] tk nv tm rq]; exact Hall.
  - unfold fire. destruct (nth_error (timers s) k) as [t|]; [|exact Hall].
    unfold revealCallback.
    destruct (Z.of_nat (index_of t) <? Z.of_nat (List.length (bubbles_of t)) - 1).
    + apply Hdisp. specialize (Hrem k).
      destruct s as [ms it ty [|] tk nv tm rq]; host; exact Hrem.
    + specialize (Hrem k).
      destruct s as [ms it ty [|] tk nv tm rq]; host; exact Hrem.
  - exact Hall.
Qed.

(** C1.  A non-empty fragment batch handed to the Staged Reply Player and
    revealed to its end appends one Message for each fragment, in the order
    of the batch, each with sender [nila] and the fragment as its text, and
    nothing else; after the last reveal the typing flag is false and no
    reveal is left pending. *)
Theorem staged_reveal (bubbles : list jsstring) (e0 : Env) (es : list Env)
    (s : State) :
  mounted s = true -> bubbles <> [] ->
  List.length es = List.length bubbles ->
  let s' := reveal_all (List.length (timers s)) es
              (handleSend_resumed (Resolved bubbles) e0 s) in
  messages s' = messages s ++ revealed bubbles 0 es /\
  List.map text (revealed bubbles 0 es) = bubbles /\
  Forall (fun m => sender m = nila) (revealed bubbles 0 es) /\
  List.length (revealed bubbles 0 es) = List.length bubbles /\
  isTyping s' = false /\
  timers s' = timers s.
Proof.
  intros Hm Hne Hlen s'. subst s'.
  destruct es as [|e rest].
  { destruct bubbles; [contradiction|discriminate]. }
  assert (Hstart : handleSend_resumed (Resolved bubbles) e0 s
                   = setTimeout (mkTimer bubbles 0 (delay 0 (math_random e0))) s).
  { simpl. unfold displayBubblesWithDelay.
    destruct bubbles; [contradiction|reflexivity]. }
  rewrite Hstart.
  rewrite (reveal_all_from rest e bubbles 0 (delay 0 (math_random e0))
             (timers s)); [ | exact Hm | reflexivity | simpl in *; lia ].
  cbn [messages isTyping timers setTimeout].
  split; [reflexivity|]. split.
  - rewrite revealed_text by (simpl in *; lia).
    rewrite Hlen. simpl skipn. apply firstn_all.
  - split; [apply revealed_sender|].
    split; [rewrite revealed_length; exact Hlen|].
    split; reflexivity.
Qed.

Lemma staged_reveal_witness :
  let s := mkState [mkMessage 1000 (lit "hi") user (lit "10:42 AM")]
                   [] true true (Some a_token) [] [] [] in
  let s' := reveal_all 0 [at_time 1912 one_half; at_time 2562 0]
              (handleSend_resumed
                 (Resolved [lit "hello"; lit "there"]) (at_time 1050 one_eighth) s) in
  messages s' = messages s ++
                [mkMessage 1912 (lit "hello") nila (lit "10:42 AM");
                 mkMessage 2563 (lit "there") nila (lit "10:42 AM")] /\
  isTyping s' = false.
Proof.
  assert (Hne : [lit "hello"; lit "there"] <> []) by discriminate.
  pose proof (staged_reveal [lit "hello"; lit "there"]
    (at_time 1050 one_eighth) [at_time 1912 one_half; at_time 2562 0]
    (mkState [mkMessage 1000 (lit "hi") user (lit "10:42 AM")]
             [] true true (Some a_token) [] [] [])
    eq_refl Hne eq_refl) as (H1 & _ & _ & _ & H5 & _).
  split; [exact H1|exact H5].
Defined.

(** ** Teardown *)

(** A reveal never writes the Session Store. *)
Lemma revealCallback_token (bubbles : list jsstring) (index : nat)
    (e : Env) (s : State) :
  token (revealCallback bubbles index e s) = token s.
Proof.
  unfold revealCallback, displayBubblesWithDelay.
  destruct s as [ms it ty [|] tk nv tm rq]; host;
    destruct (Z.of_nat index <? Z.of_nat (List.length bubbles) - 1);
    try destruct (List.length bubbles <=? index + 1)%nat; reflexivity.
Qed.

(** A reply to the history call that arrives after teardown is handled
    as before it: a 401 still clears the credential. *)
Lemma late_401_after_teardown (s : State) (k : nat) (tok : jsstring)
    (error : Error) (e : Env) :
  nth_error (requests s) k = Some (GetHistory tok) ->
  unauthorized error = true ->
  token (step (Settle k (Failure error) e) (step Teardown s)) = None.
Proof.
  intros Hk Hu. simpl. unfold settle. cbn [requests unmount]. rewrite Hk.
  simpl. rewrite Hu. reflexivity.
Qed.

(** C4, as the claim has it, fails on the exchange [teardown_mid_reveal]:
    the component is unmounted while the reveal of the first of two
    fragments is pending, and that reveal is still scheduled afterwards;
    when its timer fires the callback runs and schedules the reveal of the
    second fragment. *)
Lemma teardown_leaves_reveal_pending :
  let s := run teardown_mid_reveal (initial (Some a_token)) in
  mounted s = false /\
  List.map index_of (timers s) = [0%nat] /\
  List.map index_of (timers (step (Fire 0 (at_time 1912 one_half)) s)) = [1%nat].
Proof. vm_compute. repeat split; reflexivity. Qed.

(** C4, amended.  Teardown cancels nothing: a reveal pending at teardown is
    still scheduled afterwards, and when its timer fires its callback runs
    and, unless the fragment was the last one, schedules the next reveal.
    The Message Log and the typing flag are not changed by it, the updates
    reaching an unmounted component, and the callback does not touch the
    Session Store. *)
Theorem reveal_survives_teardown (s : State) (k : nat) (e : Env) (t : Timer) :
  nth_error (timers s) k = Some t ->
  let s1 := step Teardown s in
  let s2 := step (Fire k e) s1 in
  timers s1 = timers s /\
  timers s2 = remove_nth k (timers s) ++
              (if Z.of_nat (index_of t) <? Z.of_nat (List.length (bubbles_of t)) - 1
               then [mkTimer (bubbles_of t) (index_of t + 1)
                             (delay (index_of t + 1) (math_random e))]
               else []) /\
  messages s2 = messages s /\
  isTyping s2 = isTyping s /\
  token s2 = token s.
Proof.
  intros Hk s1 s2. subst s1 s2. simpl step.
  split; [reflexivity|].
  unfold fire. cbn [timers unmount]. rewrite Hk.
  unfold revealCallback, displayBubblesWithDelay.
  destruct (Z.of_nat (index_of t) <? Z.of_nat (List.length (bubbles_of t)) - 1)
    eqn:Hlt.
  - apply Z.ltb_lt in Hlt.
    replace (List.length (bubbles_of t) <=? index_of t + 1)%nat with false
      by (symmetry; apply Nat.leb_gt; lia).
    host. repeat split; reflexivity.
  - host. rewrite app_nil_r. repeat split; reflexivity.
Qed.

Lemma reveal_survives_teardown_witness :
  let s := run send_two_fragments (initial (Some a_token)) in
  let s2 := step (Fire 0 (at_time 1912 one_half)) (step Teardown s) in
  List.map index_of (timers s) = [0%nat] /\
  timers s2 = [mkTimer [lit "hello"; lit "there"] 1 (delay 1 one_half)] /\
  messages s2 = messages s /\ token s2 = token s.
Proof.
  split; [reflexivity|].
  pose proof (reveal_survives_teardown
    (run send_two_fragments (initial (Some a_token))) 0
    (at_time 1912 one_half)
    (mkTimer [lit "hello"; lit "there"] 0 (delay 0 one_eighth)) eq_refl)
    as (_ & H2 & H3 & _ & H5).
  split; [exact H2|]. split; [exact H3|exact H5].
Defined.

(** ** Message identifiers *)

(** C9, at the exchange [send_right_after_reveal]: the second fragment is
    revealed at clock 2562 and gets the identifier 2562 + 1; the user's
    next message, sent at clock 2563, gets 2563 as well.  The two Messages
    differ and sit in the log with one identifier. *)
Theorem identifiers_collide :
  let s := run send_right_after_reveal (initial (Some a_token)) in
  List.map id (messages s) = [1000; 1912; 2563; 2563] /\
  List.map sender (messages s) = [user; nila; nila; user] /\
  ~ NoDup (List.map id (messages s)).
Proof.
  vm_compute. split; [reflexivity|]. split; [reflexivity|].
  intros H.
  inversion H as [|? ? _ H1]; subst.
  inversion H1 as [|? ? _ H2]; subst.
  inversion H2 as [|? ? Hin _]; subst.
  apply Hin. left. reflexivity.
Qed.

(** ** The delay arithmetic *)

Section DelayArithmetic.
Import Double.

(** [fround] computes what the machine's binary64 unit computes, on
    operands around the ones of [displayBubblesWithDelay], on subnormal
    ones and on a tie. *)
Example fround_matches_binary64 :
  forallb (fun ab => agrees_with_hardware (fst ab) (snd ab))
    [ (0x1.3333333333333p-2, 500); (0.5, 500); (0, 500);
      (PrimFloat.next_down 1, 500); (0x1.f3fffffffffffp+8, 800);
      (0x1.f3ffffffffffep+8, 400); (0x0.0000000000001p-1022, 0.5);
      (0x0.012688b70e62bp-1022, 0x1.3333333333333p-2);
      (0x1.56e1fc2f8f359p-997, 0x1.b7cdfd9d7bdbbp-34) ]%float = true.
Proof. vm_compute. reflexivity. Qed.

(** What rounding to nearest gives: a multiple [q'] of the unit in the last
    place, at most half a unit above the exact value, and on the right side
    of every multiple of the unit that the exact value is on. *)
Lemma fround_cases (lsb n : Z) :
  0 <= n -> 0 <= lsb ->
  0 < Z.max (Z.log2 n + 1 - 53) lsb ->
  exists q', fround lsb n = q' * 2 ^ (Z.max (Z.log2 n + 1 - 53) lsb - lsb) /\
             0 <= q' /\
             2 * (q' * 2 ^ Z.max (Z.log2 n + 1 - 53) lsb)
             <= 2 * n + 2 ^ Z.max (Z.log2 n + 1 - 53) lsb /\
             (forall m, m * 2 ^ Z.max (Z.log2 n + 1 - 53) lsb <= n -> m <= q') /\
             (forall m, n <= m * 2 ^ Z.max (Z.log2 n + 1 - 53) lsb -> q' <= m).
Proof.
  intros Hn Hlsb Hs. unfold fround.
  set (s := Z.max (Z.log2 n + 1 - 53) lsb) in *.
  assert (Hsl : lsb <= s) by (subst s; lia).
  destruct (s <=? 0) eqn:Hle; [apply Z.leb_le in Hle; lia|].
  rewrite Z.shiftr_div_pow2, !Z.shiftl_mul_pow2 by lia.
  assert (HP : 2 ^ s = 2 * 2 ^ (s - 1)).
  { replace s with (Z.succ (s - 1)) at 1 by lia. apply Z.pow_succ_r. lia. }
  assert (Hh : 0 < 2 ^ (s - 1)) by (apply Z.pow_pos_nonneg; lia).
  set (P := 2 ^ s) in *. set (h := 2 ^ (s - 1)) in *.
  pose proof (Z.div_mod n P ltac:(lia)) as Hdm.
  pose proof (Z.mod_pos_bound n P ltac:(lia)) as Hmod.
  set (q := n / P) in *. set (r := n mod P) in *.
  replace (n - q * P) with r by lia.
  rewrite Z.mul_1_l.
  assert (Hq : 0 <= q) by (subst q; apply Z.div_pos; lia).
  destruct ((h <? r) || ((r =? h) && Z.odd q)) eqn:Hup.
  - exists (q + 1). split; [reflexivity|].
    assert (Hr : h <= r).
    { apply orb_true_iff in Hup. destruct Hup as [Hup|Hup].
      - apply Z.ltb_lt in Hup. lia.
      - apply andb_true_iff in Hup. destruct Hup as [Hup _].
        apply Z.eqb_eq in Hup. lia. }
    repeat split; try nia.
  - exists q. split; [reflexivity|].
    assert (Hr : r <= h).
    { apply orb_false_iff in Hup. destruct Hup as [Hup _].
      apply Z.ltb_ge in Hup. lia. }
    repeat split; try nia.
Qed.

Lemma of_Z_mul (k : Z) : of_Z k = k * 2 ^ 1074.
Proof. unfold of_Z. apply Z.shiftl_mul_pow2. lia. Qed.

Lemma pred_one_eq : pred_one = (2 ^ 53 - 1) * 2 ^ 1021.
Proof. vm_compute. reflexivity. Qed.

Lemma pow_1074_split : 2 ^ 1074 = 2 ^ 53 * 2 ^ 1021.
Proof. rewrite <- Z.pow_add_r by lia. reflexivity. Qed.

(** No double lies strictly between [1 - 2^-53] and 1. *)
Lemma below_one_le_pred_one (r : Z) :
  is_double r -> r < of_Z 1 -> r <= pred_one.
Proof.
  intros [Hr0 Hrep] Hlt. rewrite of_Z_mul, Z.mul_1_l in Hlt.
  rewrite pred_one_eq.
  assert (Hsplit := pow_1074_split).
  assert (H1073 : 2 ^ 1074 = 2 * 2 ^ 1073).
  { change 1074 with (Z.succ 1073). apply Z.pow_succ_r. lia. }
  assert (H52 : 2 ^ 1073 = 2 ^ 52 * 2 ^ 1021).
  { rewrite <- Z.pow_add_r by lia. reflexivity. }
  assert (H53 : 2 ^ 53 = 2 * 2 ^ 52) by reflexivity.
  assert (HU : 0 < 2 ^ 1021) by (apply Z.pow_pos_nonneg; lia).
  assert (H52pos : 0 < 2 ^ 52) by reflexivity.
  destruct (Z.lt_ge_cases r (2 ^ 1073)) as [Hsmall|Hbig].
  - set (U := 2 ^ 1021) in *. set (A := 2 ^ 52) in *.
    set (B := 2 ^ 53) in *. set (S := 2 ^ 1074) in *. set (T := 2 ^ 1073) in *.
    nia.
  - assert (Hlog : Z.log2 r = 1073).
    { apply Z.log2_unique; [lia|]. split; [exact Hbig|].
      change (1073 + 1) with 1074. exact Hlt. }
    destruct (fround_cases 0 r Hr0 (Z.le_refl 0)) as (q' & Hq & Hq0 & _ & _ & _).
    { rewrite Hlog. reflexivity. }
    rewrite Hlog in Hq. change (Z.max (1073 + 1 - 53) 0 - 0) with 1021 in Hq.
    rewrite Hrep in Hq.
    set (U := 2 ^ 1021) in *. set (A := 2 ^ 52) in *.
    set (B := 2 ^ 53) in *. set (S := 2 ^ 1074) in *. set (T := 2 ^ 1073) in *.
    assert (q' < B) by nia.
    nia.
Qed.

Lemma fround_nonneg (lsb n : Z) : 0 <= n -> 0 <= lsb -> 0 <= fround lsb n.
Proof.
  intros Hn Hlsb.
  destruct (Z.le_gt_cases (Z.max (Z.log2 n + 1 - 53) lsb) 0) as [Hs|Hs].
  - unfold fround. apply Z.leb_le in Hs. rewrite Hs. exact Hn.
  - destruct (fround_cases lsb n Hn Hlsb Hs) as (q' & Hq & Hq0 & _).
    rewrite Hq. apply Z.mul_nonneg_nonneg; [exact Hq0|].
    apply Z.pow_nonneg. lia.
Qed.

(** [Math.random() * 500] stays below 500. *)
Lemma randomVar_range (r : Z) :
  is_double r -> r < of_Z 1 -> 0 <= randomVar r < of_Z 500.
Proof.
  intros Hd Hlt.
  pose proof (below_one_le_pred_one r Hd Hlt) as Hmax.
  destruct Hd as [Hr0 _].
  unfold randomVar, mul. rewrite !of_Z_mul in *. rewrite pred_one_eq in Hmax.
  assert (Hsplit := pow_1074_split).
  assert (HU : 0 < 2 ^ 1021) by (apply Z.pow_pos_nonneg; lia).
  assert (HS : 0 < 2 ^ 1074) by (apply Z.pow_pos_nonneg; lia).
  assert (HT : 2 ^ 2104 = 512 * 2 ^ 1074 * 2 ^ 1021).
  { change 512 with (2 ^ 9). rewrite <- !Z.pow_add_r by lia. reflexivity. }
  assert (Hn0 : 0 <= r * (500 * 2 ^ 1074)) by nia.
  split; [apply fround_nonneg; lia|].
  set (n := r * (500 * 2 ^ 1074)) in *.
  assert (Hs : Z.max (Z.log2 n + 1 - 53) 1074 <= 2104).
  { apply Z.max_lub; [|lia].
    destruct (Z.eq_dec n 0) as [->|Hnz]; [simpl; lia|].
    assert (Z.log2 n < 2157); [|lia].
    apply Z.log2_lt_pow2; [lia|].
    assert (H2157 : 2 ^ 2157 = 512 * 2 ^ 1074 * 2 ^ 1074).
    { change 512 with (2 ^ 9). rewrite <- !Z.pow_add_r by lia. reflexivity. }
    rewrite H2157. subst n.
    set (U := 2 ^ 1021) in *. set (B := 2 ^ 53) in *. set (S := 2 ^ 1074) in *.
    nia. }
  destruct (fround_cases 1074 n Hn0 ltac:(lia) ltac:(lia))
    as (q' & Hq & Hq0 & Herr & _ & _).
  set (s := Z.max (Z.log2 n + 1 - 53) 1074) in *.
  assert (Hs1074 : 1074 <= s) by (subst s; lia).
  assert (Hpow : 2 ^ s = 2 ^ (s - 1074) * 2 ^ 1074).
  { rewrite <- Z.pow_add_r by lia. f_equal. lia. }
  assert (Hle : 2 ^ s <= 2 ^ 2104) by (apply Z.pow_le_mono_r; lia).
  rewrite Hq. subst n.
  set (U := 2 ^ 1021) in *. set (B := 2 ^ 53) in *. set (S := 2 ^ 1074) in *.
  set (Ps := 2 ^ s) in *. set (T := 2 ^ 2104) in *.
  set (J := q' * 2 ^ (s - 1074)) in *.
  assert (HJS : J * S = q' * Ps) by (subst J; rewrite Hpow; ring).
  assert (Hrs : r * S <= (B - 1) * U * S) by (apply Z.mul_le_mono_nonneg_r; lia).
  assert (2 * (J * S) < 2 * (500 * S * S)); [|nia].
  rewrite HJS. nia.
Qed.

(** Adding a jitter below 500 to a literal between 1 and 1500: the sum
    rounds to a double between the literal and the literal plus 500, both
    included. *)
Lemma add_literal_range (D J : Z) :
  1 <= D <= 1500 -> 0 <= J < of_Z 500 ->
  of_Z D <= add (of_Z D) J <= of_Z (D + 500).
Proof.
  intros HD HJ. unfold add. rewrite !of_Z_mul in *.
  assert (HS : 0 < 2 ^ 1074) by (apply Z.pow_pos_nonneg; lia).
  set (n := D * 2 ^ 1074 + J).
  assert (Hn : 2 ^ 1074 <= n < 2 ^ 1085).
  { assert (H1085 : 2 ^ 1085 = 2048 * 2 ^ 1074).
    { change 2048 with (2 ^ 11). rewrite <- Z.pow_add_r by lia. reflexivity. }
    rewrite H1085. subst n. set (S := 2 ^ 1074) in *. nia. }
  assert (Hlog : 1074 <= Z.log2 n < 1085).
  { split.
    - apply Z.log2_le_pow2; lia.
    - apply Z.log2_lt_pow2; lia. }
  assert (Hmax : Z.max (Z.log2 n + 1 - 53) 0 = Z.log2 n - 52) by lia.
  destruct (fround_cases 0 n ltac:(lia) (Z.le_refl 0) ltac:(lia))
    as (q' & Hq & _ & _ & Hlo & Hhi).
  rewrite Hmax in *. rewrite Z.sub_0_r in Hq.
  set (s := Z.log2 n - 52) in *.
  assert (Hgrid : 2 ^ 1074 = 2 ^ (1074 - s) * 2 ^ s).
  { rewrite <- Z.pow_add_r by lia. f_equal. lia. }
  assert (Hg0 : 0 < 2 ^ (1074 - s)) by (apply Z.pow_pos_nonneg; lia).
  assert (Hs0 : 0 < 2 ^ s) by (apply Z.pow_pos_nonneg; lia).
  rewrite Hq.
  specialize (Hlo (D * 2 ^ (1074 - s))).
  specialize (Hhi ((D + 500) * 2 ^ (1074 - s))).
  subst n. rewrite Hgrid in *.
  set (G := 2 ^ (1074 - s)) in *. set (Ps := 2 ^ s) in *.
  split.
  - assert (D * G <= q') by (apply Hlo; nia). nia.
  - assert (q' <= (D + 500) * G) by (apply Hhi; nia). nia.
Qed.

Lemma half_baseDelay : div2 baseDelay = of_Z 400.
Proof. vm_compute. reflexivity. Qed.

(** C5, as the claim has it, fails at the largest draw below 1,
    [1 - 2^-53]: the jitter is below 500, but added to 800 it rounds to
    1300 and added to 400 it rounds to 900, on the machine's binary64 unit
    as in this model.  The draw [1 - 2^-52] gives 1300 as well. *)
Lemma delay_reaches_upper_bound :
  is_double pred_one /\ 0 <= pred_one < of_Z 1 /\
  of_prim (PrimFloat.next_down 1) = Some pred_one /\
  randomVar pred_one < of_Z 500 /\
  delay 0 pred_one = of_Z 1300 /\
  delay 1 pred_one = of_Z 900 /\
  delay 0 pred_one_52 = of_Z 1300 /\
  of_prim (800 + PrimFloat.next_down 1 * 500)%float = Some (of_Z 1300) /\
  of_prim (800 / 2 + PrimFloat.next_down 1 * 500)%float = Some (of_Z 900).
Proof.
  vm_compute. repeat split; try reflexivity; discriminate.
Qed.

(** C5, amended.  For a draw [random] of [Math.random()], a double in
    [0, 1), the reveal of the fragment at cursor [index] is scheduled with
    the delay D + J in binary64 arithmetic, where D is 800 at cursor 0 and
    400 otherwise and the jitter J = random * 500 lies in [0, 500); the
    delay lies in [800, 1300] at cursor 0 and in [400, 900] otherwise, both
    ends included. *)
Theorem delay_range (index : nat) (random : Z) :
  is_double random -> random < of_Z 1 ->
  let D := if Nat.eqb index 0 then 800 else 400 in
  delay index random = add (of_Z D) (randomVar random) /\
  0 <= randomVar random < of_Z 500 /\
  of_Z D <= delay index random <= of_Z (D + 500) /\
  (forall bubbles s,
      (index < List.length bubbles)%nat ->
      timers (displayBubblesWithDelay bubbles index random s)
      = timers s ++ [mkTimer bubbles index (delay index random)]).
Proof.
  intros Hd Hlt D.
  pose proof (randomVar_range random Hd Hlt) as HJ.
  assert (Heq : delay index random = add (of_Z D) (randomVar random)).
  { unfold delay. subst D. destruct (Nat.eqb index 0).
    - reflexivity.
    - rewrite half_baseDelay. reflexivity. }
  split; [exact Heq|]. split; [exact HJ|]. split.
  - rewrite Heq. apply add_literal_range; [|exact HJ].
    subst D. destruct (Nat.eqb index 0); lia.
  - intros bubbles s Hin. unfold displayBubblesWithDelay.
    replace (List.length bubbles <=? index)%nat with false
      by (symmetry; apply Nat.leb_gt; exact Hin).
    reflexivity.
Qed.

Lemma delay_range_witness :
  is_double one_half /\ one_half < of_Z 1 /\
  randomVar one_half = of_Z 250 /\
  of_Z 800 <= delay 0 one_half <= of_Z 1300 /\
  of_Z 400 <= delay 1 one_half <= of_Z 900.
Proof.
  assert (Hd : is_double one_half).
  { split; [vm_compute; discriminate|vm_compute; reflexivity]. }
  assert (Hlt : one_half < of_Z 1) by (vm_compute; reflexivity).
  split; [exact Hd|]. split; [exact Hlt|].
  split; [vm_compute; reflexivity|].
  split.
  - apply (delay_range 0 one_half Hd Hlt).
  - apply (delay_range 1 one_half Hd Hlt).
Defined.

End DelayArithmetic.

(** * Further properties of the chat component *)

(** ** What an event does to the pending calls and to the credential *)

Lemma remove_nth_Forall {A : Type} (P : A -> Prop) (k : nat) (l : list A) :
  Forall P l -> Forall P (remove_nth k l).
Proof.
  intros H. unfold remove_nth. apply Forall_app. split.
  - rewrite <- (firstn_skipn k l) in H. apply Forall_app in H. apply H.
  - rewrite <- (firstn_skipn (S k) l) in H. apply Forall_app in H. apply H.
Qed.

Lemma remove_nth_incl {A : Type} (k : nat) (l : list A) :
  incl (remove_nth k l) l.
Proof.
  unfold remove_nth. intros x Hin. apply in_app_or in Hin.
  destruct Hin as [Hin|Hin].
  - rewrite <- (firstn_skipn k l). apply in_or_app. left. exact Hin.
  - rewrite <- (firstn_skipn (S k) l). apply in_or_app. right. exact Hin.
Qed.

Lemma remove_nth_length {A : Type} (k : nat) (l : list A) :
  (List.length (remove_nth k l) <= List.length l)%nat.
Proof.
  unfold remove_nth. rewrite length_app, length_firstn, length_skipn. lia.
Qed.

Lemma displayBubblesWithDelay_requests
    (bubbles : list jsstring) (index : nat) (random : Z) (s : State) :
  requests (displayBubblesWithDelay bubbles index random s) = requests s.
Proof.
  unfold displayBubblesWithDelay, setIsTyping, setTimeout.
  destruct (List.length bubbles <=? index)%nat; [destruct (mounted s)|];
    reflexivity.
Qed.

Lemma revealCallback_requests
    (bubbles : list jsstring) (index : nat) (e : Env) (s : State) :
  requests (revealCallback bubbles index e s) = requests s.
Proof.
  unfold revealCallback.
  destruct (Z.of_nat index <? Z.of_nat (List.length bubbles) - 1).
  - rewrite displayBubblesWithDelay_requests.
    destruct s as [ms it ty [|] tk nv tm rq]; reflexivity.
  - destruct s as [ms it ty [|] tk nv tm rq]; reflexivity.
Qed.

(** An event leaves the pending calls as they are, takes one away, or
    adds one; it adds one only with the credential of the store, which
    [!token] lets through, and a chat call only with a text that is not
    blank. *)
Lemma step_requests (ev : Event) (s : State) :
  requests (step ev s) = requests s \/
  (exists k, requests (step ev s) = remove_nth k (requests s)) \/
  (exists r, requests (step ev s) = requests s ++ [r] /\
             token s = Some (bearer_of r) /\
             carries_credential r = true /\ posts_text r = true).
Proof.
  destruct ev as [|v|e| |k r e|k e|]; simpl.
  - unfold fetchHistory. destruct (token s) as [tok|] eqn:Ht; [|left; reflexivity].
    destruct (str_falsy tok) eqn:Hf; [left; reflexivity|].
    right. right. exists (GetHistory tok). unfold carries_credential. simpl.
    rewrite Hf. repeat split; reflexivity.
  - left. unfold setInputText. destruct (mounted s); reflexivity.
  - unfold handleSend, handleSendFrom. destruct (token s) as [tok|] eqn:Ht; [|left; reflexivity].
    destruct (str_falsy tok) eqn:Hf; [left; reflexivity|].
    destruct (str_falsy (trim (inputText s))) eqn:Hb; [left; reflexivity|].
    right. right. exists (PostChat tok (inputText s)).
    unfold carries_credential. simpl. rewrite Hf, Hb.
    split; [|repeat split; reflexivity].
    destruct s as [ms it ty [|] tk nv tm rq]; reflexivity.
  - left. reflexivity.
  - unfold settle.
    destruct (nth_error (requests s) k) as [[tok|tok msg]|];
      destruct r as [data|replyBubbles|err]; try (left; reflexivity);
      right; left; exists k.
    + destruct s as [ms it ty [|] tk nv tm rq]; reflexivity.
    + simpl. destruct (unauthorized err); reflexivity.
    + simpl. rewrite displayBubblesWithDelay_requests. reflexivity.
    + simpl. destruct (unauthorized err);
        destruct s as [ms it ty [|] tk nv tm rq]; reflexivity.
  - left. unfold fire. destruct (nth_error (timers s) k) as [t|]; [|reflexivity].
    rewrite revealCallback_requests. reflexivity.
  - left. reflexivity.
Qed.

(** An event leaves the credential as it is or removes it. *)
Lemma step_token (ev : Event) (s : State) :
  token (step ev s) = token s \/ token (step ev s) = None.
Proof.
  destruct ev as [|v|e| |k r e|k e|]; simpl.
  - left. unfold fetchHistory. destruct s as [ms it ty mt tk nv tm rq]; simpl.
    destruct tk as [tok|]; [destruct (str_falsy tok)|]; reflexivity.
  - left. unfold setInputText. destruct (mounted s); reflexivity.
  - left. unfold handleSend, handleSendFrom. destruct s as [ms it ty mt tk nv tm rq]; simpl.
    destruct tk as [tok|]; [destruct (str_falsy tok)|]; try reflexivity.
    destruct (str_falsy (trim it)); [reflexivity|].
    destruct mt; reflexivity.
  - right. reflexivity.
  - unfold settle.
    destruct (nth_error (requests s) k) as [[tok|tok msg]|];
      destruct r as [data|replyBubbles|err]; try (left; reflexivity).
    + left. destruct s as [ms it ty [|] tk nv tm rq]; reflexivity.
    + simpl. destruct (unauthorized err); [right|left]; reflexivity.
    + left. rewrite handleSend_resumed_token. reflexivity.
    + left. rewrite handleSend_resumed_token. reflexivity.
  - left. unfold fire. destruct (nth_error (timers s) k) as [t|]; [|reflexivity].
    rewrite revealCallback_token. reflexivity.
  - left. reflexivity.
Qed.

Lemma run_requests_Forall (P : Request -> Prop) (evs : list Event) :
  (forall r, carries_credential r = true -> posts_text r = true -> P r) ->
  forall s, Forall P (requests s) -> Forall P (requests (run evs s)).
Proof.
  intros HP. induction evs as [|ev evs IH]; intros s Hall; simpl.
  - exact Hall.
  - apply IH.
    destruct (step_requests ev s) as [->|[[k ->]|(r & -> & _ & Hc & Ht)]].
    + exact Hall.
    + apply remove_nth_Forall. exact Hall.
    + apply Forall_app. split; [exact Hall|].
      constructor; [apply HP; assumption|constructor].
Qed.

Lemma run_without_credential (evs : list Event) :
  forall s, falsy (token s) = true ->
    falsy (token (run evs s)) = true /\
    incl (requests (run evs s)) (requests s) /\
    (List.length (requests (run evs s)) <= List.length (requests s))%nat.
Proof.
  induction evs as [|ev evs IH]; intros s Hf; simpl.
  - split; [exact Hf|]. split; [apply incl_refl|lia].
  - assert (Hf' : falsy (token (step ev s)) = true).
    { destruct (step_token ev s) as [->| ->]; [exact Hf|reflexivity]. }
    destruct (IH (step ev s) Hf') as (H1 & H2 & H3).
    split; [exact H1|].
    destruct (step_requests ev s) as [Hr|[[k Hr]|(r & _ & Ht & Hc & _)]].
    + rewrite Hr in *. split; assumption.
    + rewrite Hr in *. split.
      * eapply incl_tran; [exact H2|apply remove_nth_incl].
      * pose proof (remove_nth_length k (requests s)). lia.
    + exfalso. unfold falsy in Hf. rewrite Ht in Hf.
      unfold carries_credential in Hc. rewrite Hf in Hc. discriminate.
Qed.

Lemma credential_never_minted_aux (evs : list Event) :
  forall s, token (run evs s) = token s \/ token (run evs s) = None.
Proof.
  induction evs as [|ev evs IH]; intros s; simpl.
  - left. reflexivity.
  - destruct (IH (step ev s)) as [H|H]; [|right; exact H].
    rewrite H. apply step_token.
Qed.

(** ** The Session Guard *)

(** X1.  Whatever happens after the first render, every call that is
    pending was issued with a credential that [!token] lets through: no
    history or chat call leaves without a bearer credential. *)
Theorem calls_carry_credential (tok : option jsstring) (evs : list Event) :
  Forall (fun r => carries_credential r = true)
         (requests (run evs (initial tok))).
Proof.
  apply run_requests_Forall.
  - intros r Hc _. exact Hc.
  - constructor.
Qed.

(** X2.  Whatever happens after the first render, every pending chat call
    posts a text with something else than white space in it. *)
Theorem posted_text_not_blank (tok : option jsstring) (evs : list Event) :
  Forall (fun r => posts_text r = true) (requests (run evs (initial tok))).
Proof.
  apply run_requests_Forall.
  - intros r _ Ht. exact Ht.
  - constructor.
Qed.

(** X3.  The chat never writes a credential: after any run of events the
    Session Store holds what it held before, or nothing. *)
Theorem credential_never_minted (evs : list Event) (s : State) :
  (token (run evs s) = token s \/ token (run evs s) = None) /\
  (token s = None -> token (run evs s) = None).
Proof.
  destruct (credential_never_minted_aux evs s) as [H|H].
  - split; [left; exact H|]. intros Hn. rewrite H. exact Hn.
  - split; [right; exact H|]. intros _. exact H.
Qed.

(** X4.  Rendered without a credential (none, or the empty string), the
    chat does nothing but signal the redirect to login, whatever events
    follow: the Message Log stays empty, no call is issued, no reveal is
    scheduled and the typing flag stays off. *)
Theorem nothing_without_credential (tok : option jsstring) (evs : list Event) :
  falsy tok = true ->
  let s := run evs (initial tok) in
  messages s = [] /\ requests s = [] /\ timers s = [] /\ isTyping s = false /\
  Forall (fun to => to = "/login"%string) (navigated s).
Proof.
  intros Hf.
  assert (Hinv : forall s,
             falsy (token s) = true -> messages s = [] -> requests s = [] ->
             timers s = [] -> isTyping s = false ->
             Forall (fun to => to = "/login"%string) (navigated s) ->
             messages (run evs s) = [] /\ requests (run evs s) = [] /\
             timers (run evs s) = [] /\ isTyping (run evs s) = false /\
             Forall (fun to => to = "/login"%string) (navigated (run evs s))).
  { induction evs as [|ev evs IH]; intros s Ht Hm Hr Hti Hty Hn; simpl.
    - repeat split; assumption.
    - assert (Hlogin : Forall (fun to => to = "/login"%string)
                              (navigated s ++ ["/login"%string])).
      { apply Forall_app. split; [exact Hn|]. constructor; [reflexivity|constructor]. }
      destruct s as [ms it ty mt tk nv tm rq]. simpl in *. subst ms rq tm ty.
      destruct ev as [|v|e| |k r e|k e|]; simpl.
      + unfold fetchHistory. simpl.
        destruct tk as [t|]; [destruct (str_falsy t) eqn:E; [|simpl in Ht; congruence]|];
          apply IH; simpl; auto.
      + unfold setInputText. simpl. destruct mt; apply IH; simpl; auto.
      + unfold handleSend, handleSendFrom. simpl.
        destruct tk as [t|]; [destruct (str_falsy t) eqn:E; [|simpl in Ht; congruence]|];
          apply IH; simpl; auto.
      + apply IH; simpl; auto.
      + unfold settle. simpl. destruct k; apply IH; simpl; auto.
      + unfold fire. simpl. destruct k; apply IH; simpl; auto.
      + apply IH; simpl; auto. }
  apply Hinv; try reflexivity; [exact Hf|constructor].
Qed.

Lemma nothing_without_credential_witness :
  let s := run [Activate; Change (lit "hi"); Send (at_time 1000 0);
                Fire 0 (at_time 2000 0)] (initial (Some [])) in
  messages s = [] /\ requests s = [] /\
  navigated s = ["/login"%string; "/login"%string].
Proof.
  pose proof (nothing_without_credential (Some [])
    [Activate; Change (lit "hi"); Send (at_time 1000 0);
     Fire 0 (at_time 2000 0)] eq_refl) as (H1 & H2 & _).
  split; [exact H1|]. split; [exact H2|reflexivity].
Defined.

(** X5.  Logout clears the credential and signals the redirect to login;
    it cancels nothing, the log, the pending reveals and the pending calls
    being as before.  From then on the store stays empty and no further
    call is issued, whatever events follow. *)
Theorem logout_ends_session (s : State) (evs : list Event) :
  let s1 := step Logout s in
  token s1 = None /\
  navigated s1 = navigated s ++ ["/login"%string] /\
  messages s1 = messages s /\ timers s1 = timers s /\
  requests s1 = requests s /\ isTyping s1 = isTyping s /\
  token (run evs s1) = None /\
  incl (requests (run evs s1)) (requests s) /\
  (List.length (requests (run evs s1)) <= List.length (requests s))%nat.
Proof.
  simpl.
  destruct (run_without_credential evs (handleLogout s) eq_refl)
    as (Hf & Hincl & Hlen).
  repeat split; try reflexivity; try assumption.
  destruct (credential_never_minted_aux evs (handleLogout s)) as [H|H];
    [rewrite H; reflexivity|exact H].
Qed.

(** ** Failures of the two calls *)

(** X6.  When the history call fails, the call is done with and the log,
    the typing flag and the pending reveals are as before; the credential
    is cleared and the redirect to login signaled exactly when the failure
    is an axios error with status 401, and otherwise neither happens. *)
Theorem history_failure_handling
    (s : State) (k : nat) (tok : jsstring) (err : Error) (e : Env) :
  nth_error (requests s) k = Some (GetHistory tok) ->
  let s' := step (Settle k (Failure err) e) s in
  requests s' = remove_nth k (requests s) /\
  messages s' = messages s /\ isTyping s' = isTyping s /\
  timers s' = timers s /\
  token s' = (if unauthorized err then None else token s) /\
  navigated s' = (if unauthorized err then navigated s ++ ["/login"%string]
                  else navigated s).
Proof.
  intros Hk. simpl. unfold settle. rewrite Hk. simpl.
  destruct (unauthorized err); repeat split; reflexivity.
Qed.

Lemma history_failure_handling_witness :
  let s := step Activate (initial (Some a_token)) in
  nth_error (requests s) 0 = Some (GetHistory a_token) /\
  token (step (Settle 0 (Failure (mkError true (Some 403))) (at_time 900 0)) s)
  = Some a_token /\
  token (step (Settle 0 (Failure status_401) (at_time 900 0)) s) = None.
Proof.
  split; [reflexivity|]. split.
  - apply (history_failure_handling (step Activate (initial (Some a_token)))
             0 a_token (mkError true (Some 403)) (at_time 900 0) eq_refl).
  - apply (history_failure_handling (step Activate (initial (Some a_token)))
             0 a_token status_401 (at_time 900 0) eq_refl).
Defined.

(** X7.  When the chat call fails, whatever the failure, the typing flag is
    turned off, the log keeps what it had, no reveal is scheduled and the
    call is done with; the redirect to login is signaled exactly when the
    failure is an axios error with status 401. *)
Theorem send_failure_handling
    (s : State) (k : nat) (tok msg : jsstring) (err : Error) (e : Env) :
  mounted s = true ->
  nth_error (requests s) k = Some (PostChat tok msg) ->
  let s' := step (Settle k (Failure err) e) s in
  isTyping s' = false /\ messages s' = messages s /\ timers s' = timers s /\
  inputText s' = inputText s /\
  requests s' = remove_nth k (requests s) /\
  navigated s' = (if unauthorized err then navigated s ++ ["/login"%string]
                  else navigated s).
Proof.
  intros Hm Hk. simpl. unfold settle. rewrite Hk. simpl.
  destruct s as [ms it ty mt tk nv tm rq]. simpl in *. subst mt.
  destruct (unauthorized err); repeat split; reflexivity.
Qed.

Lemma send_failure_handling_witness :
  let s := step (Send (at_time 1000 0))
             (mkState [] (lit "hi") false true (Some a_token) [] [] []) in
  mounted s = true /\
  isTyping s = true /\
  isTyping (step (Settle 0 (Failure (mkError false None)) (at_time 1050 0)) s)
  = false /\
  navigated (step (Settle 0 (Failure (mkError false None)) (at_time 1050 0)) s)
  = [].
Proof.
  split; [reflexivity|]. split; [reflexivity|].
  pose proof (send_failure_handling
    (step (Send (at_time 1000 0))
       (mkState [] (lit "hi") false true (Some a_token) [] [] []))
    0 a_token (lit "hi") (mkError false None) (at_time 1050 0)
    eq_refl eq_refl) as (H1 & _ & _ & _ & _ & H6).
  split; [exact H1|exact H6].
Defined.

(** ** The send button and the handler *)

Lemma str_falsy_trim (v : jsstring) :
  str_falsy (trim v) = forallb isWhiteSpace v.
Proof.
  destruct (forallb isWhiteSpace v) eqn:Hw.
  - apply trim_nil_iff in Hw. rewrite Hw. reflexivity.
  - destruct (trim v) as [|c rest] eqn:Ht; [|reflexivity].
    apply trim_nil_iff in Ht. congruence.
Qed.

(** X8.  The send button is disabled exactly when the input holds nothing
    but white space, and with a credential in the store the handler agrees
    with the button: [handleSend] leaves the state as it is exactly when
    the button is disabled. *)
Theorem send_button_guard (e : Env) (s : State) :
  falsy (token s) = false ->
  sendDisabled s = forallb isWhiteSpace (inputText s) /\
  (sendDisabled s = true <-> handleSend e s = s).
Proof.
  intros Hf. split; [apply str_falsy_trim|].
  unfold sendDisabled, handleSend, handleSendFrom, falsy in *.
  destruct (token s) as [tok|] eqn:Ht; [|discriminate]. rewrite Hf.
  destruct (str_falsy (trim (inputText s))) eqn:Hb.
  - split; reflexivity.
  - split; [discriminate|].
    intros Heq. apply (f_equal requests) in Heq.
    destruct s as [ms it ty [|] tk nv tm rq]; simpl in Heq;
      apply (f_equal (@List.length Request)) in Heq;
      rewrite length_app in Heq; simpl in Heq; lia.
Qed.

Lemma send_button_guard_witness :
  let s := mkState [] (lit " hi ") false true (Some a_token) [] [] [] in
  falsy (token s) = false /\ sendDisabled s = false /\
  (sendDisabled s = true <-> handleSend (at_time 1000 0) s = s).
Proof.
  split; [reflexivity|]. split; [reflexivity|].
  apply (send_button_guard (at_time 1000 0)
    (mkState [] (lit " hi ") false true (Some a_token) [] [] []) eq_refl).
Defined.

(** X9.  Two sends in a row, with a credential in the store.  When the
    second is handled by the render that follows the first, it changes
    nothing more: an accepted send empties the input.  When both are
    handled by one render, whose closure holds the text that was typed,
    the second posts that text again and appends a second user Message. *)
Theorem double_submit (e1 e2 : Env) (s : State) (tok : jsstring) :
  mounted s = true -> token s = Some tok -> tok <> [] ->
  step (Send e2) (step (Send e1) s) = step (Send e1) s /\
  (trim (inputText s) <> [] ->
   requests (handleSendFrom (inputText s) e2 (handleSendFrom (inputText s) e1 s))
   = requests s ++ [PostChat tok (inputText s); PostChat tok (inputText s)] /\
   messages (handleSendFrom (inputText s) e2 (handleSendFrom (inputText s) e1 s))
   = messages s ++
     [mkMessage (date_now e1) (inputText s) user (locale_time e1);
      mkMessage (date_now e2) (inputText s) user (locale_time e2)]).
Proof.
  intros Hm Ht Hne.
  assert (Hf : str_falsy tok = false) by (destruct tok; [contradiction|reflexivity]).
  split.
  - simpl.
    destruct (trim (inputText s)) as [|c rest] eqn:Hb.
    + assert (Hsame : forall e, handleSend e s = s).
      { intros e. unfold handleSend, handleSendFrom. rewrite Ht, Hf, Hb.
        reflexivity. }
      rewrite (Hsame e1). apply Hsame.
    + rewrite (handleSend_accepted e1 s tok Hm Ht Hne) by (rewrite Hb; discriminate).
      unfold handleSend, handleSendFrom. simpl. rewrite Hf. reflexivity.
  - intros Hb.
    remember (inputText s) as shown eqn:Hshown.
    assert (H1 : handleSendFrom shown e1 s =
                 mkState (messages s ++ [mkMessage (date_now e1) shown user
                                                   (locale_time e1)])
                         [] true true (Some tok) (navigated s) (timers s)
                         (requests s ++ [PostChat tok shown])).
    { rewrite Hshown. apply (handleSend_accepted e1 s tok Hm Ht Hne).
      rewrite <- Hshown. exact Hb. }
    rewrite H1. unfold handleSendFrom. simpl. rewrite Hf.
    destruct (trim shown) as [|c rest]; [contradiction|]. simpl.
    rewrite <- !app_assoc. split; reflexivity.
Qed.

Lemma double_submit_witness :
  let s := mkState [] (lit "hi") false true (Some a_token) [] [] [] in
  List.length (requests (step (Send (at_time 1001 0))
                           (step (Send (at_time 1000 0)) s))) = 1%nat /\
  List.length (requests (handleSendFrom (lit "hi") (at_time 1001 0)
                           (handleSendFrom (lit "hi") (at_time 1000 0) s)))
  = 2%nat.
Proof.
  assert (Hne : a_token <> []) by discriminate.
  assert (Hb : trim (lit "hi") <> []) by discriminate.
  destruct (double_submit (at_time 1000 0) (at_time 1001 0)
    (mkState [] (lit "hi") false true (Some a_token) [] [] [])
    a_token eq_refl eq_refl Hne) as [H1 H2].
  split.
  - cbv zeta. rewrite H1. reflexivity.
  - destruct (H2 Hb) as [Hr _]. cbv zeta.
    change (lit "hi") with
      (inputText (mkState [] (lit "hi") false true (Some a_token) [] [] [])) at 1 2.
    rewrite Hr. reflexivity.
Defined.

(** ** Identifiers within one batch *)

Lemma revealed_ids_above (bubbles : list jsstring) (es : list Env) :
  forall (e : Env) (index : nat),
    clock_monotone (e :: es) ->
    Forall (fun i => date_now e + Z.of_nat index < i)
           (List.map id (revealed bubbles (S index) es)).
Proof.
  induction es as [|e' rest IH]; intros e index Hmono; simpl.
  - constructor.
  - destruct Hmono as [Hle Hrest]. constructor.
    + lia.
    + eapply Forall_impl; [|apply (IH e' (S index) Hrest)].
      intros i Hi. simpl in Hi. lia.
Qed.

Lemma revealed_ids_sorted (bubbles : list jsstring) (es : list Env) :
  forall index, clock_monotone es ->
    StronglySorted Z.lt (List.map id (revealed bubbles index es)).
Proof.
  induction es as [|e rest IH]; intros index Hmono; simpl.
  - constructor.
  - constructor.
    + apply IH. destruct Hmono as [_ Hrest]. exact Hrest.
    + apply revealed_ids_above. exact Hmono.
Qed.

Lemma sorted_lt_NoDup (l : list Z) : StronglySorted Z.lt l -> NoDup l.
Proof.
  induction 1 as [|x l Hs IH Hall]; constructor.
  - intros Hin. rewrite Forall_forall in Hall. specialize (Hall x Hin). lia.
  - exact IH.
Qed.

(** X10.  Within one batch the identifiers are told apart: when the clock
    does not go back between the reveals (it may stand still), the
    Messages a batch appends carry strictly increasing identifiers, hence
    pairwise distinct ones. *)
Theorem batch_identifiers_increase (bubbles : list jsstring) (e0 : Env)
    (es : list Env) (s : State) :
  mounted s = true -> bubbles <> [] ->
  List.length es = List.length bubbles ->
  clock_monotone es ->
  exists new,
    messages (reveal_all (List.length (timers s)) es
                (handleSend_resumed (Resolved bubbles) e0 s))
    = messages s ++ new /\
    List.length new = List.length bubbles /\
    StronglySorted Z.lt (List.map id new) /\
    NoDup (List.map id new).
Proof.
  intros Hm Hne Hlen Hmono.
  exists (revealed bubbles 0 es).
  destruct es as [|e rest].
  { destruct bubbles; [contradiction|discriminate]. }
  assert (Hstart : handleSend_resumed (Resolved bubbles) e0 s
                   = setTimeout (mkTimer bubbles 0 (delay 0 (math_random e0))) s).
  { simpl. unfold displayBubblesWithDelay.
    destruct bubbles; [contradiction|reflexivity]. }
  rewrite Hstart.
  rewrite (reveal_all_from rest e bubbles 0 (delay 0 (math_random e0))
             (timers s)); [ | exact Hm | reflexivity | simpl in *; lia ].
  cbn [messages setTimeout].
  split; [reflexivity|].
  split; [rewrite revealed_length; exact Hlen|].
  pose proof (revealed_ids_sorted bubbles (e :: rest) 0 Hmono) as Hs.
  split; [exact Hs|apply sorted_lt_NoDup; exact Hs].
Qed.

Lemma batch_identifiers_increase_witness :
  let s := mkState [] [] true true (Some a_token) [] [] [] in
  exists new,
    messages (reveal_all 0 [at_time 2000 one_half; at_time 2000 0]
                (handleSend_resumed (Resolved [lit "hello"; lit "there"])
                   (at_time 1050 one_eighth) s))
    = messages s ++ new /\
    NoDup (List.map id new).
Proof.
  assert (Hne : [lit "hello"; lit "there"] <> []) by discriminate.
  assert (Hmono : clock_monotone [at_time 2000 one_half; at_time 2000 0]).
  { simpl. repeat split. lia. }
  destruct (batch_identifiers_increase [lit "hello"; lit "there"]
    (at_time 1050 one_eighth) [at_time 2000 one_half; at_time 2000 0]
    (mkState [] [] true true (Some a_token) [] [] [])
    eq_refl Hne eq_refl Hmono) as (new & H1 & _ & _ & H4).
  exists new. split; [exact H1|exact H4].
Defined.

(** ** Pending reveals *)

(** X11.  Whatever happens after the first render, every pending reveal
    points inside its batch: the fragment [bubbles[index]] the callback
    will append exists. *)
Theorem pending_reveals_in_range (tok : option jsstring) (evs : list Event) :
  Forall (fun t => (index_of t < List.length (bubbles_of t))%nat)
         (timers (run evs (initial tok))).
Proof.
  assert (Hrun : forall s,
             Forall (fun t => (index_of t < List.length (bubbles_of t))%nat)
                    (timers s) ->
             Forall (fun t => (index_of t < List.length (bubbles_of t))%nat)
                    (timers (run evs s))).
  { induction evs as [|ev evs IH]; intros s Hall; simpl.
    - exact Hall.
    - apply IH. apply step_timers_in_range. exact Hall. }
  apply Hrun. constructor.
Qed.

Lemma fragments_of_remove_nth (f : Timer -> nat) (l : list Timer) :
  forall (k : nat) (t : Timer),
    nth_error l k = Some t ->
    (list_sum (List.map f (remove_nth k l)) + f t
     = list_sum (List.map f l))%nat.
Proof.
  unfold remove_nth.
  induction l as [|a l IH]; intros k t Hk.
  - destruct k; discriminate.
  - destruct k as [|k]; simpl in *.
    + injection Hk as <-. lia.
    + rewrite <- (IH k t Hk). lia.
Qed.

(** X12.  A reveal appends exactly one Message, the fragment it was
    scheduled for, and takes exactly one fragment off what is left to
    reveal, whichever pending reveal fires and however many batches are
    being revealed: no fragment is dropped or shown twice. *)
Theorem reveal_conserves_fragments (s : State) (k : nat) (e : Env) (t : Timer) :
  mounted s = true ->
  nth_error (timers s) k = Some t ->
  (index_of t < List.length (bubbles_of t))%nat ->
  let s' := step (Fire k e) s in
  messages s' = messages s ++
                [mkMessage (date_now e + Z.of_nat (index_of t))
                           (nth (index_of t) (bubbles_of t) []) nila
                           (locale_time e)] /\
  S (fragments_left s') = fragments_left s.
Proof.
  intros Hm Hk Hin. simpl. unfold fire. rewrite Hk.
  pose proof (fragments_of_remove_nth
                (fun t => List.length (bubbles_of t) - index_of t)%nat
                (timers s) k t Hk) as Hsum.
  cbv beta in Hsum. unfold fragments_left.
  destruct (Nat.eq_dec (S (index_of t)) (List.length (bubbles_of t))) as [Hlast|Hmore].
  - rewrite revealCallback_last by (simpl; trivial).
    cbn [messages timers with_timers]. split; [reflexivity|]. lia.
  - rewrite revealCallback_more by (simpl; trivial; lia).
    cbn [messages timers with_timers]. split; [reflexivity|].
    rewrite map_app, list_sum_app. simpl. lia.
Qed.

Lemma reveal_conserves_fragments_witness :
  let s := run send_two_fragments (initial (Some a_token)) in
  fragments_left s = 2%nat /\
  fragments_left (step (Fire 0 (at_time 1912 one_half)) s) = 1%nat.
Proof.
  split; [reflexivity|].
  pose proof (reveal_conserves_fragments
    (run send_two_fragments (initial (Some a_token))) 0
    (at_time 1912 one_half)
    (mkTimer [lit "hello"; lit "there"] 0 (delay 0 one_eighth))
    eq_refl eq_refl ltac:(simpl; lia)) as (_ & H).
  exact (eq_add_S _ _ H).
Defined.

(** * The forms and the chat *)

(** X13.  A login or a registration that succeeds with a non-empty
    [access_token] stores it and sends the user to the chat, and the chat
    rendered on that store asks for the history with that very token and
    signals no redirect. *)
Theorem login_then_chat (f : Form) (t : jsstring) :
  t <> [] ->
  let logged := handleLogin_resumed (Resolved (Some t)) f in
  let registered := handleRegister_resumed (Resolved (Some t)) f in
  stored_token logged = Some t /\
  form_navigated logged = form_navigated f ++ ["/chat"%string] /\
  error logged = error f /\
  registered = logged /\
  requests (step Activate (initial (stored_token logged))) = [GetHistory t] /\
  navigated (step Activate (initial (stored_token logged))) = [].
Proof.
  intros Hne. simpl.
  rewrite (fetchHistory_with_credential (initial (Some t)) t eq_refl Hne).
  repeat split; reflexivity.
Qed.

Lemma login_then_chat_witness :
  let f := mkForm (lit "ann") (lit "pw") [] None [] [PostToken (lit "ann") (lit "pw")] in
  a_token <> [] /\
  requests (step Activate
              (initial (stored_token
                          (handleLogin_resumed (Resolved (Some a_token)) f))))
  = [GetHistory a_token].
Proof.
  assert (Hne : a_token <> []) by discriminate.
  split; [exact Hne|].
  apply (login_then_chat
    (mkForm (lit "ann") (lit "pw") [] None [] [PostToken (lit "ann") (lit "pw")])
    a_token Hne).
Defined.

(** X14.  The reply of a successful login is not looked at.  When it has
    no [access_token] the text "undefined" is stored and the user is sent
    to the chat, which takes that text for a credential and asks for the
    history with it.  When the [access_token] is the empty string it is
    stored as well, and the chat, finding it falsy, signals the redirect
    back to login without any call. *)
Theorem login_reply_unchecked (f : Form) :
  let missing := handleLogin_resumed (Resolved None) f in
  let empty := handleLogin_resumed (Resolved (Some [])) f in
  stored_token missing = Some (lit "undefined") /\
  form_navigated missing = form_navigated f ++ ["/chat"%string] /\
  requests (step Activate (initial (stored_token missing)))
  = [GetHistory (lit "undefined")] /\
  navigated (step Activate (initial (stored_token missing))) = [] /\
  stored_token empty = Some [] /\
  form_navigated empty = form_navigated f ++ ["/chat"%string] /\
  requests (step Activate (initial (stored_token empty))) = [] /\
  navigated (step Activate (initial (stored_token empty))) = ["/login"%string].
Proof. simpl. repeat split; reflexivity. Qed.

(** X15.  A login or a registration that fails leaves the Session Store
    and the route as they are and shows a message.  The login shows
    "Invalid username or password" for every axios error, whatever its
    status and also when there is no response at all, and "Login failed"
    otherwise; the registration shows "Username already taken" for an
    axios error with status 400 only, and "Registration failed"
    otherwise. *)
Theorem form_failure_handling (f : Form) (err : Error) :
  let l := handleLogin_resumed (Rejected err) f in
  let r := handleRegister_resumed (Rejected err) f in
  stored_token l = stored_token f /\ form_navigated l = form_navigated f /\
  stored_token r = stored_token f /\ form_navigated r = form_navigated f /\
  error l = (if isAxiosError err then lit "Invalid username or password"
             else lit "Login failed") /\
  error r = (if isAxiosError err
             then match response_status err with
                  | Some 400 => lit "Username already taken"
                  | _ => lit "Registration failed"
                  end
             else lit "Registration failed") /\
  error l <> [] /\ error r <> [].
Proof.
  simpl. unfold username_taken.
  destruct err as [ax st]. simpl.
  destruct ax; simpl.
  - destruct st as [z|]; simpl.
    + destruct (z =? 400) eqn:Hz.
      * apply Z.eqb_eq in Hz. subst z. simpl.
        repeat split; try reflexivity; discriminate.
      * simpl. repeat split; try reflexivity; try discriminate.
        destruct z as [|p|p]; try reflexivity.
        destruct (Pos.eq_dec p 400) as [->|Hp]; [discriminate Hz|].
        repeat (destruct p as [p|p|]; try reflexivity; try congruence).
    + repeat split; try reflexivity; discriminate.
  - repeat split; try reflexivity; discriminate.
Qed.

(** * The typing indicator *)

Lemma existsb_remove_nth {A : Type} (f : A -> bool) (l : list A) :
  forall (k : nat) (x : A),
    nth_error l k = Some x -> f x = false ->
    existsb f (remove_nth k l) = existsb f l.
Proof.
  unfold remove_nth.
  induction l as [|a l IH]; intros k x Hk Hx.
  - destruct k; discriminate.
  - destruct k as [|k]; simpl in *.
    + injection Hk as ->. rewrite Hx. reflexivity.
    + rewrite (IH k x Hk Hx). reflexivity.
Qed.

Lemma timers_snoc_pending (ts : list Timer) (t : Timer) :
  match ts ++ [t] with [] => false | _ :: _ => true end = true.
Proof. destruct ts; reflexivity. Qed.

(** An event never brings an unmounted component back. *)
Lemma step_unmounted (ev : Event) (s : State) :
  mounted s = false -> mounted (step ev s) = false.
Proof.
  intros Hm. destruct s as [ms it ty mt tk nv tm rq]. simpl in Hm. subst mt.
  destruct ev as [|v|e| |k r e|k e|]; simpl; try reflexivity.
  - unfold fetchHistory. simpl.
    destruct tk as [tok|]; [destruct (str_falsy tok)|]; reflexivity.
  - unfold handleSend, handleSendFrom. simpl.
    destruct tk as [tok|]; [destruct (str_falsy tok)|]; try reflexivity.
    destruct (str_falsy (trim it)); reflexivity.
  - unfold settle. simpl.
    destruct (nth_error rq k) as [[tok|tok msg]|];
      destruct r as [data|replyBubbles|err]; try reflexivity; simpl.
    + destruct (unauthorized err); reflexivity.
    + unfold displayBubblesWithDelay.
      destruct (List.length replyBubbles <=? 0)%nat; reflexivity.
    + destruct (unauthorized err); reflexivity.
  - unfold fire. simpl. destruct (nth_error tm k) as [t|]; [|reflexivity].
    unfold revealCallback, displayBubblesWithDelay. host.
    destruct (Z.of_nat (index_of t) <? Z.of_nat (List.length (bubbles_of t)) - 1);
      [destruct (List.length (bubbles_of t) <=? index_of t + 1)%nat|];
      reflexivity.
Qed.

Lemma step_typing_has_cause (ev : Event) (s : State) :
  (mounted s = true -> isTyping s = true -> work_pending s = true) ->
  mounted (step ev s) = true -> isTyping (step ev s) = true ->
  work_pending (step ev s) = true.
Proof.
  intros Hinv Hm' Hty'.
  destruct (mounted s) eqn:Hm;
    [|rewrite (step_unmounted ev s Hm) in Hm'; discriminate].
  specialize (Hinv eq_refl).
  destruct s as [ms it ty mt tk nv tm rq]. simpl in Hm. subst mt.
  unfold work_pending in *. simpl in Hinv.
  destruct ev as [|v|e| |k r e|k e|]; simpl in *.
  - unfold fetchHistory in *. simpl in *.
    destruct tk as [tok|]; [destruct (str_falsy tok)|]; simpl in *; auto.
    rewrite existsb_app. simpl. rewrite orb_false_r. auto.
  - unfold setInputText in *. simpl in *. auto.
  - unfold handleSend, handleSendFrom in *. simpl in *.
    destruct tk as [tok|]; [destruct (str_falsy tok)|]; simpl in *; auto.
    destruct (str_falsy (trim it)); simpl in *; auto.
    rewrite existsb_app. simpl. rewrite orb_true_r. reflexivity.
  - auto.
  - unfold settle in *. simpl in *.
    destruct (nth_error rq k) as [[tok|tok msg]|] eqn:Hk;
      destruct r as [data|replyBubbles|err]; simpl in *; auto.
    + rewrite (existsb_remove_nth is_chat_call rq k _ Hk eq_refl). auto.
    + destruct (unauthorized err); simpl in *;
        rewrite (existsb_remove_nth is_chat_call rq k _ Hk eq_refl); auto.
    + unfold displayBubblesWithDelay in *.
      destruct (List.length replyBubbles <=? 0)%nat; host.
      * discriminate.
      * rewrite timers_snoc_pending. apply orb_true_r.
    + destruct (unauthorized err); host; discriminate.
  - unfold fire in *. simpl in *.
    destruct (nth_error tm k) as [t|]; [|auto].
    unfold revealCallback, displayBubblesWithDelay in *. host.
    destruct (Z.of_nat (index_of t) <? Z.of_nat (List.length (bubbles_of t)) - 1);
      [destruct (List.length (bubbles_of t) <=? index_of t + 1)%nat|];
      simpl in *; try discriminate.
    rewrite timers_snoc_pending. apply orb_true_r.
  - discriminate.
Qed.

(** X16.  The typing indicator is never left on with nothing to wait for:
    whatever happens after the first render, while the component is
    mounted and the typing flag is true, a chat call or a reveal is
    pending. *)
Theorem typing_has_cause (tok : option jsstring) (evs : list Event) :
  let s := run evs (initial tok) in
  mounted s = true -> isTyping s = true -> work_pending s = true.
Proof.
  assert (Hrun : forall s,
             (mounted s = true -> isTyping s = true -> work_pending s = true) ->
             mounted (run evs s) = true -> isTyping (run evs s) = true ->
             work_pending (run evs s) = true).
  { induction evs as [|ev evs IH]; intros s Hinv; simpl.
    - exact Hinv.
    - apply IH. apply step_typing_has_cause. exact Hinv. }
  apply Hrun. simpl. discriminate.
Qed.

Lemma typing_has_cause_witness :
  let s := run send_two_fragments (initial (Some a_token)) in
  mounted s = true /\ isTyping s = true /\ work_pending s = true.
Proof.
  split; [reflexivity|]. split; [reflexivity|].
  apply (typing_has_cause (Some a_token) send_two_fragments);
    reflexivity.
Defined.
